(** * bench.c and repeat.c: a shallow embedding and its properties

    [bench.c] runs a command repeatedly as a child process, times every run
    with the monotonic clock and prints min / avg / max over a time window,
    after an untimed warmup.  [repeat.c] prints a message a number of times.

    The C [double] is IEEE binary64, modelled by the Standard Library's
    executable specification [spec_float] (53 bits of precision, round to
    nearest even).  The operating system is an oracle [env]: what the k-th
    [clock_gettime] returns and what the k-th [fork] does; the program
    threads a [world] (how many oracle answers were consumed, and a log of
    what it did) through a small state-and-exit monad. *)

From Stdlib Require Import ZArith List Bool Lia Ascii String.
From Stdlib Require Import Floats.SpecFloat.
Import ListNotations.
Open Scope Z_scope.

(** ** binary64 *)

Module Double.

Definition double : Type := spec_float.

Definition prec : Z := 53.
Definition emax : Z := 1024.

Definition dadd : double -> double -> double := SFadd prec emax.
Definition dsub : double -> double -> double := SFsub prec emax.
Definition ddiv : double -> double -> double := SFdiv prec emax.

(** C's [<], [<=], [>], [>=] on doubles: all false when an operand is NaN. *)
Definition dlt (x y : double) : bool := SFltb x y.
Definition dle (x y : double) : bool := SFleb x y.
Definition dgt (x y : double) : bool := SFltb y x.
Definition dge (x y : double) : bool := SFleb y x.

(** The conversion [(double) n] of an integer, and integer literals. *)
Definition of_int (n : Z) : double := binary_normalize prec emax n 0 false.

Definition dzero : double := S754_zero false.

Definition is_nan (x : double) : bool :=
  match x with S754_nan => true | _ => false end.

(** A finite number: zero or [S754_finite] (neither NaN nor infinite). *)
Definition is_finite (x : double) : bool :=
  match x with S754_zero _ | S754_finite _ _ _ => true | _ => false end.

Definition valid (x : double) : bool := valid_binary prec emax x.

End Double.
Export Double.

(** ** Wait statuses (sys/wait.h, Linux encoding) *)

Module WaitStatus.

(** How a child ends.  [waitpid] is called with options 0, so stopped and
    continued children are never reported. *)
Inductive termination : Type :=
| Exited (code : Z)
| Signaled (sig : Z) (core : bool).

(** The kernel's encoding of a termination into the [int] that [waitpid]
    stores: exit code in bits 8..15, signal in bits 0..6, core flag bit 7. *)
Definition wstatus (t : termination) : Z :=
  match t with
  | Exited code => Z.shiftl (Z.land code 255) 8
  | Signaled sig core => Z.lor (Z.land sig 127) (if core then 128 else 0)
  end.

Definition WTERMSIG (status : Z) : Z := Z.land status 127.
Definition WIFEXITED (status : Z) : bool := WTERMSIG status =? 0.
Definition WEXITSTATUS (status : Z) : Z := Z.shiftr (Z.land status 65280) 8.

(** A termination the kernel can report: an 8-bit exit code, or a signal
    number 1..126 (127 in the low bits encodes a stopped child). *)
Definition well_formed (t : termination) : Prop :=
  match t with
  | Exited code => 0 <= code <= 255
  | Signaled sig _ => 1 <= sig <= 126
  end.

End WaitStatus.
Export WaitStatus.

(** ** The operating system as an oracle, and the program's world *)

Record timespec : Type := { tv_sec : Z; tv_nsec : Z }.

(** What [execvp] does in the child: it fails and returns, or the child
    becomes the command, which later ends in some way. *)
Inductive exec_ret : Type :=
| ExecFails
| ExecRuns (t : termination).

(** How the parent's wait ends, after the interrupted attempts. *)
Inductive wait_end : Type :=
| Reaped
| WaitError.

(** One call of [fork]: it fails, or a child is created; [eintr] is the
    number of times [waitpid] is interrupted before it ends by [fin]. *)
Inductive fork_ret : Type :=
| ForkError
| Child (prog : exec_ret) (eintr : nat) (fin : wait_end).

Record env : Type := {
  clock : nat -> option timespec;          (* k-th clock_gettime; None: it fails *)
  proc : list string -> nat -> fork_ret    (* k-th fork, for the command run *)
}.

Inductive errmsg : Type :=
| PerrorClock | PerrorFork | PerrorWaitpid
| InvalidWarmup | InvalidDuration | Usage | MissingCommand.

(** The four [printf] lines of the report, with their arguments. *)
Inductive line : Type :=
| MinLine (v : double) (warmups : Z)
| AvgLine (v : double) (runs : Z)
| MaxLine (v : double) (fails : Z)
| TotalLine (v : double).

Inductive event : Type :=
| EvFork (ok : bool)               (* a call of fork, and whether a child exists *)
| EvStderr (m : errmsg)
| EvStdout (l : line)
| EvRun (rc : Z) (secs : double).  (* ghost: a run folded into the statistics *)

(** [log] is newest first. *)
Record world : Type := { clk : nat; forks : nat; log : list event }.

Definition init_world : world := {| clk := 0; forks := 0; log := [] |}.

Definition emit_ev (e : event) (w : world) : world :=
  {| clk := clk w; forks := forks w; log := e :: log w |}.

Inductive stuck : Type :=
| OutOfFuel            (* the model's loop bound was reached *)
| SignedOverflow.      (* [runs++] at LONG_MAX: undefined behaviour *)

(** A computation ends by returning a value, by calling [exit], or is
    stuck. *)
Inductive result (A : Type) : Type :=
| Ret (a : A) (w : world)
| Exit (code : Z) (w : world)
| Stuck (why : stuck).
Arguments Ret {A} a w.
Arguments Exit {A} code w.
Arguments Stuck {A} why.

Definition M (A : Type) : Type := world -> result A.

Definition ret {A} (a : A) : M A := fun w => Ret a w.

Definition bind {A B} (m : M A) (k : A -> M B) : M B :=
  fun w =>
    match m w with
    | Ret a w' => k a w'
    | Exit code w' => Exit code w'
    | Stuck why => Stuck why
    end.

Notation "x <- m ;; k" := (bind m (fun x => k))
  (at level 61, m at next level, right associativity).
Notation "m ;;; k" := (bind m (fun _ => k))
  (at level 61, right associativity).

Definition emit (e : event) : M unit := fun w => Ret tt (emit_ev e w).

Definition EXIT_SUCCESS : Z := 0.
Definition EXIT_FAILURE : Z := 1.
Definition LONG_MAX : Z := 9223372036854775807.

(** ** bench.c *)

(** The double that [now_monotonic] makes of a clock reading:
    [(double)ts.tv_sec + (double)ts.tv_nsec / 1e9]. *)
Definition seconds (ts : timespec) : double :=
  dadd (of_int (tv_sec ts)) (ddiv (of_int (tv_nsec ts)) (of_int 1000000000)).

Definition ticked (w : world) : world :=
  {| clk := S (clk w); forks := forks w; log := log w |}.

(** [now_monotonic]: the clock as seconds in a double; a failing
    [clock_gettime] ends the whole program. *)
Definition now_monotonic (E : env) : M double := fun w =>
  match clock E (clk w) with
  | None => Exit EXIT_FAILURE (emit_ev (EvStderr PerrorClock) (ticked w))
  | Some ts => Ret (seconds ts) (ticked w)
  end.

Definition fork (E : env) (cmd_argv : list string) : M fork_ret := fun w =>
  let r := proc E cmd_argv (forks w) in
  Ret r {| clk := clk w; forks := S (forks w);
           log := EvFork (match r with ForkError => false | Child _ _ _ => true end)
                    :: log w |}.

(** The child's branch of [run_once]: [execvp], and [_exit(127)] when it
    returns. *)
Definition child (prog : exec_ret) : termination :=
  match prog with
  | ExecFails => Exited 127
  | ExecRuns t => t
  end.

(** The retry loop around [waitpid]: an interrupted call is repeated; any
    other error gives up; otherwise the status is there. *)
Fixpoint wait_child (status : Z) (eintr : nat) (fin : wait_end) : option Z :=
  match eintr with
  | S k => wait_child status k fin
  | O => match fin with
         | Reaped => Some status
         | WaitError => None
         end
  end.

(** The last lines of [run_once]: success is a normal exit with status 0,
    anything else of a reaped child is a failure. *)
Definition classify (status : Z) : Z :=
  if WIFEXITED status && (WEXITSTATUS status =? 0) then 0 else 1.

(** [run_once]: the return code, and what was stored through [secs_out]
    ([None]: nothing was stored; both callers pass a valid pointer). *)
Definition run_once (E : env) (cmd_argv : list string) : M (Z * option double) :=
  t0 <- now_monotonic E ;;
  pid <- fork E cmd_argv ;;
  match pid with
  | ForkError => emit (EvStderr PerrorFork) ;;; ret (-1, None)
  | Child prog eintr fin =>
      match wait_child (wstatus (child prog)) eintr fin with
      | None => emit (EvStderr PerrorWaitpid) ;;; ret (-1, None)
      | Some status =>
          t1 <- now_monotonic E ;;
          ret (classify status, Some (dsub t1 t0))
      end
  end.

(** The statistics variables of [main]. *)
Record stats : Type := {
  min_s : double; max_s : double; sum_s : double;
  runs : Z; fails : Z
}.

Definition zero_stats : stats :=
  {| min_s := dzero; max_s := dzero; sum_s := dzero; runs := 0; fails := 0 |}.

(** One pass through "Update statistics": the body of the timed loop after
    [run_once] returned [rc] and [secs] holds the duration. *)
Definition update_stats (st : stats) (rc : Z) (secs : double) : stats :=
  {| min_s := if runs st =? 0 then secs
              else if dlt secs (min_s st) then secs else min_s st;
     max_s := if runs st =? 0 then secs
              else if dgt secs (max_s st) then secs else max_s st;
     sum_s := dadd (sum_s st) secs;
     runs := runs st + 1;
     fails := if negb (rc =? 0) then fails st + 1 else fails st |}.

(** [double secs = 0.0; int rc = run_once(&secs);] *)
Definition secs_after (out : option double) : double :=
  match out with
  | Some d => d
  | None => dzero
  end.

(** The timed loop, [while (1)]: [fuel] bounds the number of iterations the
    model follows. *)
Fixpoint measure (fuel : nat) (E : env) (cmd_argv : list string)
    (total_start duration : double) (st : stats) : M stats :=
  match fuel with
  | O => fun _ => Stuck OutOfFuel
  | S fuel' =>
      t <- now_monotonic E ;;
      let elapsed := dsub t total_start in
      if dge elapsed duration then ret st
      else
        r <- run_once E cmd_argv ;;
        let rc := fst r in
        let secs := secs_after (snd r) in
        if LONG_MAX <=? runs st then (fun _ => Stuck SignedOverflow)
        else
          emit (EvRun rc secs) ;;;
          measure fuel' E cmd_argv total_start duration (update_stats st rc secs)
  end.

(** The warmup loop, [for (i = 0; i < warmups; i++)], as [n] iterations. *)
Fixpoint warmup (n : nat) (E : env) (cmd_argv : list string) : M unit :=
  match n with
  | O => ret tt
  | S n' => run_once E cmd_argv ;;; warmup n' E cmd_argv
  end.

(** What [getopt] hands to the loop, with [optarg] already through [atoi]
    or [atof]; [OptOther] is an option [getopt] rejects. *)
Inductive opt : Type :=
| OptW (n : Z)
| OptD (d : double)
| OptOther.

Record config : Type := { warmups : Z; duration : double }.

Definition default_config : config :=
  {| warmups := 0; duration := of_int 5 |}.

Definition fail_with {A} (m : errmsg) : M A := fun w =>
  Exit EXIT_FAILURE (emit_ev (EvStderr m) w).

(** The option loop of [main]; [return EXIT_FAILURE] from [main] ends the
    program like [exit]. *)
Fixpoint parse_options (opts : list opt) (c : config) : M config :=
  match opts with
  | [] => ret c
  | OptW n :: rest =>
      if n <? 0 then fail_with InvalidWarmup
      else parse_options rest {| warmups := n; duration := duration c |}
  | OptD d :: rest =>
      if dle d dzero then fail_with InvalidDuration
      else parse_options rest {| warmups := warmups c; duration := d |}
  | OptOther :: rest => fail_with Usage
  end.

Definition avg_of (st : stats) : double :=
  if runs st >? 0 then ddiv (sum_s st) (of_int (runs st)) else dzero.

Definition shown (st : stats) (v : double) : double :=
  if runs st =? 0 then dzero else v.

Definition report (c : config) (st : stats) (total_elapsed : double) : M unit :=
  emit (EvStdout (MinLine (shown st (min_s st)) (warmups c))) ;;;
  emit (EvStdout (AvgLine (shown st (avg_of st)) (runs st))) ;;;
  emit (EvStdout (MaxLine (shown st (max_s st)) (fails st))) ;;;
  emit (EvStdout (TotalLine total_elapsed)).

(** Everything after the warmup: the timed window and the report; the
    value is [main]'s return value. *)
Definition timed_phase (fuel : nat) (E : env) (cmd_argv : list string)
    (c : config) : M Z :=
  total_start <- now_monotonic E ;;
  st <- measure fuel E cmd_argv total_start (duration c) zero_stats ;;
  t_end <- now_monotonic E ;;
  let total_elapsed := dsub t_end total_start in
  report c st total_elapsed ;;;
  ret (if fails st >? 0 then EXIT_FAILURE else EXIT_SUCCESS).

(** [main]: [opts] is the sequence of options [getopt] finds and
    [cmd_argv] the arguments left after them. *)
Definition main (fuel : nat) (E : env) (opts : list opt)
    (cmd_argv : list string) : M Z :=
  c <- parse_options opts default_config ;;
  match cmd_argv with
  | [] => fail_with MissingCommand
  | _ :: _ =>
      warmup (Z.to_nat (warmups c)) E cmd_argv ;;;
      timed_phase fuel E cmd_argv c
  end.

(** The status the program ends with, however it ends. *)
Definition exit_status (r : result Z) : option Z :=
  match r with
  | Ret code _ => Some code
  | Exit code _ => Some code
  | Stuck _ => None
  end.

(** A scripted operating system: the clock answers with [ticks] in turn
    (and fails afterwards), the forks behave as [procs] in turn (and fail
    afterwards), whatever the command. *)
Definition tick (sec nsec : Z) : timespec := {| tv_sec := sec; tv_nsec := nsec |}.

Definition scripted (ticks : list timespec) (procs : list fork_ret) : env :=
  {| clock := fun k => nth_error ticks k;
     proc := fun _ k => nth k procs ForkError |}.

(** The runs folded into the statistics, oldest first. *)
Fixpoint measured (l : list event) : list (Z * double) :=
  match l with
  | [] => []
  | EvRun rc secs :: l' => measured l' ++ [(rc, secs)]
  | _ :: l' => measured l'
  end.

(** The number of calls of [fork] in a log, and of children created. *)
Definition is_fork (e : event) : bool :=
  match e with EvFork _ => true | _ => false end.

Definition is_child (e : event) : bool :=
  match e with EvFork true => true | _ => false end.

Definition is_stdout (e : event) : bool :=
  match e with EvStdout _ => true | _ => false end.

Definition fork_calls (l : list event) : nat := List.length (filter is_fork l).
Definition children (l : list event) : nat := List.length (filter is_child l).
Definition printed (l : list event) : list event := filter is_stdout l.

Definition fold_stats (st : stats) (l : list (Z * double)) : stats :=
  fold_left (fun s o => update_stats s (fst o) (snd o)) l st.


(** The exact value of a finite double, counted in units of 2^-1074
    (the smallest positive double); 0 for the others. *)
Definition units (x : double) : Z :=
  match x with
  | S754_finite s m e => (if s then -1 else 1) * (Z.pos m * 2 ^ (e + 1074))
  | _ => 0
  end.

(** A duration the clock arithmetic can produce: a finite binary64. *)
Definition finite_double (x : double) : Prop :=
  valid x = true /\ is_finite x = true.

(** The runs of a history that failed: [rc != 0]. *)
Definition failed (o : Z * double) : bool := negb (fst o =? 0).

Definition durations (l : list (Z * double)) : list double := map snd l.

(** The statistics [main] reports from: those folded from the log. *)
Definition stats_of (w : world) : stats := fold_stats zero_stats (measured (log w)).

(** An option the option loop of [main] stops at. *)
Definition rejected (o : opt) : bool :=
  match o with
  | OptW n => n <? 0
  | OptD d => dle d dzero
  | OptOther => true
  end.

(** The four lines of the report as they end up in the log. *)
Definition report_lines (c : config) (st : stats) (total_elapsed : double)
    : list event :=
  [EvStdout (TotalLine total_elapsed);
   EvStdout (MaxLine (shown st (max_s st)) (fails st));
   EvStdout (AvgLine (shown st (avg_of st)) (runs st));
   EvStdout (MinLine (shown st (min_s st)) (warmups c))].

(** What a computation returned, and the world it ended in. *)
Definition value_or {A} (d : A) (r : result A) : A :=
  match r with
  | Ret a _ => a
  | _ => d
  end.

Definition world_of {A} (r : result A) : world :=
  match r with
  | Ret _ w => w
  | Exit _ w => w
  | Stuck _ => init_world
  end.

(** ** Example runs *)

(** A command that exits with status 0, 25.0005 ms after it was started;
    the clock starts at 1 ms and every step of the parent takes 1 ms. *)
Definition exits_0 : fork_ret := Child (ExecRuns (Exited 0)) 0 Reaped.

Definition steady_start : timespec := tick 0 1000000.

Definition steady_env : env :=
  scripted
    [steady_start;
     tick 0 2000000; tick 0 3000000; tick 0 28000500;
     tick 0 29000500; tick 0 30000500; tick 0 55001000;
     tick 0 56001000; tick 0 57001000; tick 0 82001500;
     tick 0 83001500; tick 0 84001500]
    [exits_0; exits_0; exits_0].

(** [-d 0.0625] *)
Definition sixteenth : double := ddiv (of_int 1) (of_int 16).

Definition cmd_true : list string := ["true"%string].

(** A command killed by signal 9 after 2 s, then a fork that fails and a
    wait that fails after 3 s, then a command that exits with status 2. *)
Definition rough_env : env :=
  scripted
    [tick 10 0;
     tick 10 1000; tick 10 2000; tick 12 2000;
     tick 12 3000; tick 12 4000;
     tick 12 5000; tick 12 6000;
     tick 15 7000; tick 15 8000; tick 16 8000;
     tick 16 9000; tick 16 10000]
    [Child (ExecRuns (Signaled 9 false)) 2 Reaped;
     ForkError;
     Child (ExecRuns (Exited 0)) 0 WaitError;
     Child (ExecRuns (Exited 2)) 1 Reaped].

(** A command that runs for 10 s although the budget is a sixteenth of a
    second. *)
Definition slow_env : env :=
  scripted
    [tick 0 0; tick 0 1000; tick 0 2000; tick 10 2000; tick 10 3000;
     tick 10 4000]
    [exits_0].

(** A clock that works for ever: one second per reading up to the sixth,
    where it stays; every command exits with status 0. *)
Definition ticking_env : env :=
  {| clock := fun k => Some (tick (Z.of_nat (Nat.min k 6)) 0);
     proc := fun _ _ => exits_0 |}.

(** ** What is left of the operating system after a part of the program *)

(** The oracle as it answers from the world [w1] on. *)
Definition shift (E : env) (w1 : world) : env :=
  {| clock := fun k => clock E (k + clk w1)%nat;
     proc := fun cmd k => proc E cmd (k + forks w1)%nat |}.

(** The world [w], reached by a program started afresh, seen from a
    program that had already reached [w1] when that one started. *)
Definition behind (w1 w : world) : world :=
  {| clk := (clk w + clk w1)%nat;
     forks := (forks w + forks w1)%nat;
     log := log w ++ log w1 |}.

Definition lift_result {A} (w1 : world) (r : result A) : result A :=
  match r with
  | Ret a w => Ret a (behind w1 w)
  | Exit code w => Exit code (behind w1 w)
  | Stuck why => Stuck why
  end.

(** [m], run from [w1] on, does what [m'] does from the start. *)
Definition continues {A} (w1 : world) (m m' : M A) : Prop :=
  forall w, m (behind w1 w) = lift_result w1 (m' w).

(** [n / d] rounded to the nearest integer, ties to even ([0 <= n], [0 < d]). *)
Definition round_half_even (n d : Z) : Z :=
  match 2 * (n mod d) ?= d with
  | Lt => n / d
  | Gt => n / d + 1
  | Eq => if Z.even (n / d) then n / d else n / d + 1
  end.

(** What [printf] shows of a double under ["%.6f"], as a number of
    millionths: the exact value rounded to six decimals, ties to even
    ([None]: it prints [nan] or [inf]). *)
Definition fmt_6f (x : double) : option Z :=
  match x with
  | S754_zero _ => Some 0
  | S754_finite s m e =>
      let shown_abs :=
        if 0 <=? e then Z.pos m * 2 ^ e * 1000000
        else round_half_even (Z.pos m * 1000000) (2 ^ (- e)) in
      Some (if s then - shown_abs else shown_abs)
  | _ => None
  end.

(** The claim that the average lies between the extremes, on doubles. *)
Definition avg_between (st : stats) : Prop :=
  dle (min_s st) (avg_of st) = true /\ dle (avg_of st) (max_s st) = true.

(** The exact sum of finite doubles, in units of 2^-1074. *)
Definition sum_units (ds : list double) : Z :=
  fold_right (fun d acc => units d + acc) 0 ds.

(** ** Rounding *)

(** [2^52]: a rounding to nearest of binary64 changes a normal number by
    a factor of at most [1 + 1 / two52]. *)
Definition two52 : Z := 4503599627370496.

(** [a <= (b + slack) * (1 + 2^-52) ^ k], on exact numbers: [a] is at most
    [b] up to [k] roundings and an absolute error of [slack]. *)
Definition le_upto (k a b slack : Z) : Prop :=
  two52 ^ k * a <= (two52 + 1) ^ k * (b + slack).

(** What [binary_round_aux] may return for a mantissa that became [m1] at
    the exponent [e1]: the number [m1 * 2 ^ e1], renormalised when the
    rounding carried into a 54th bit, or an overflow. *)
Definition rounds_to (r : double) (m1 e1 : Z) : Prop :=
  match r with
  | S754_zero false => m1 = 0
  | S754_finite false mf ef =>
      Z.pos mf * 2 ^ (ef - e1) = m1 /\ Z.pos mf < 2 ^ 53 /\
      (ef = e1 \/ ef = e1 + 1 /\ m1 = 2 ^ 53)
  | S754_infinity false => 971 <= e1
  | _ => False
  end.

(** A double that is zero or positive and finite, with a mantissa of at
    most 53 bits at an exponent not below that of the subnormals. *)
Definition nonneg_bounded (x : double) : Prop :=
  match x with
  | S754_zero _ => True
  | S754_finite false m e => -1074 <= e /\ Z.pos m < 2 ^ 53
  | _ => False
  end.

(** ** What a run records *)

(** A duration [run_once] measured: the difference of two successive
    readings of the clock. *)
Definition measured_time (E : env) (d : double) : Prop :=
  exists k ts0 ts1,
    clock E k = Some ts0 /\ clock E (S k) = Some ts1 /\
    d = dsub (seconds ts1) (seconds ts0).

(** What the timed loop folds for a run that returned [rc]: the measured
    time when the child was reaped, the 0.0 [secs] was declared with after
    a fork or wait error. *)
Definition recorded (E : env) (rc : Z) (secs : double) : Prop :=
  (rc = -1 /\ secs = dzero) \/
  ((rc = 0 \/ rc = 1) /\ measured_time E secs).

(** A first [fork] that fails, 2 s before the parent looks at the clock
    again, then two runs of 2 s each that exit with status 0. *)
Definition fork_fails_first_env : env :=
  scripted
    [tick 10 0;
     tick 10 1000; tick 10 2000;
     tick 12 2000; tick 12 3000; tick 14 3000;
     tick 14 4000; tick 14 5000; tick 16 5000;
     tick 16 6000; tick 16 7000]
    [ForkError; exits_0; exits_0].

(** ** repeat.c *)

Module Repeat.

(** What [getopt] hands to the option loop: [-r count] with [optarg]
    through [atoi], [-n], or an option it rejects. *)
Inductive opt : Type :=
| OptR (count : Z)
| OptN
| OptOther.

Record flags : Type := { repeats : Z; no_newline : bool }.

Definition default_flags : flags := {| repeats := 1; no_newline := false |}.

Inductive errmsg : Type := Usage | NoMessage.

Record output : Type := { stdout : string; stderr : list errmsg }.

(** The option loop; [None] is its [return 1] after the usage message. *)
Fixpoint parse_options (opts : list opt) (f : flags) : option flags :=
  match opts with
  | [] => Some f
  | OptR count :: rest =>
      parse_options rest {| repeats := count; no_newline := no_newline f |}
  | OptN :: rest =>
      parse_options rest {| repeats := repeats f; no_newline := true |}
  | OptOther :: _ => None
  end.

Definition nul : ascii := Ascii.zero.
Definition newline : string := String (ascii_of_nat 10) EmptyString.

(** The inner loop, [putchar] of every character from [msg] up to the
    terminator; the end of the Rocq string stands for the terminator too. *)
Fixpoint put_chars (msg : string) : string :=
  match msg with
  | EmptyString => EmptyString
  | String c rest =>
      if Ascii.eqb c nul then EmptyString else String c (put_chars rest)
  end.

(** [for (i = 0; i < repeats; i++)] from the value [i] on; [fuel] bounds
    the iterations followed. *)
Fixpoint print_loop (fuel : nat) (i repeats : Z) (msg : string)
    (no_newline : bool) : string :=
  match fuel with
  | O => EmptyString
  | S fuel' =>
      if i <? repeats then
        (put_chars msg ++ (if no_newline then EmptyString else newline)
         ++ print_loop fuel' (i + 1) repeats msg no_newline)%string
      else EmptyString
  end.

(** [main]: the exit status and what was written; [args] are the
    arguments left after the options. *)
Definition main (opts : list opt) (args : list string) : Z * output :=
  match parse_options opts default_flags with
  | None => (1, {| stdout := EmptyString; stderr := [Usage] |})
  | Some f =>
      match args with
      | [] => (1, {| stdout := EmptyString; stderr := [NoMessage] |})
      | msg :: _ =>
          (0, {| stdout := print_loop (Z.to_nat (repeats f)) 0 (repeats f)
                             msg (no_newline f);
                 stderr := [] |})
      end
  end.

(** [n] copies of [s], one after the other. *)
Fixpoint copies (n : nat) (s : string) : string :=
  match n with
  | O => EmptyString
  | S n' => (s ++ copies n' s)%string
  end.

(** A message as [argv] holds it: no NUL inside. *)
Fixpoint has_nul (msg : string) : bool :=
  match msg with
  | EmptyString => false
  | String c rest => Ascii.eqb c nul || has_nul rest
  end.

(** The count the last [-r] gave, and whether [-n] was given. *)
Definition last_count (opts : list opt) : Z :=
  fold_left (fun r o => match o with OptR count => count | _ => r end) opts 1.

Definition is_n (o : opt) : bool :=
  match o with OptN => true | _ => false end.

End Repeat.


(** ** bench.c: further notions *)

(** The same operating system, with no wait ever interrupted. *)
Definition without_interrupts (E : env) : env :=
  {| clock := clock E;
     proc := fun cmd k =>
       match proc E cmd k with
       | ForkError => ForkError
       | Child prog _ fin => Child prog 0 fin
       end |}.

(** A command that never succeeds: whenever a child is created and
    reaped, it ended in a way the kernel can report other than by a normal
    exit with code 0 (a failed [execvp] included). *)
Definition never_succeeds (E : env) (cmd : list string) : Prop :=
  forall k,
    match proc E cmd k with
    | Child prog _ Reaped => well_formed (child prog) /\ child prog <> Exited 0
    | _ => True
    end.

(** A command that always succeeds: every fork creates a child that is
    reaped after a normal exit with code 0. *)
Definition always_succeeds (E : env) (cmd : list string) : Prop :=
  forall k, exists eintr, proc E cmd k = Child (ExecRuns (Exited 0)) eintr Reaped.

(** The values the last [-w] and the last [-d] gave, with the defaults. *)
Definition last_warmups (opts : list opt) : Z :=
  fold_left (fun n o => match o with OptW n' => n' | _ => n end) opts 0.

Definition last_duration (opts : list opt) : double :=
  fold_left (fun d o => match o with OptD d' => d' | _ => d end) opts (of_int 5).

(** The message the option loop writes for an option it stops at. *)
Definition message_of (o : opt) : errmsg :=
  match o with
  | OptW _ => InvalidWarmup
  | OptD _ => InvalidDuration
  | OptOther => Usage
  end.

(** A command that cannot be executed ([execvp] fails in every child), on
    the clock of [steady_env]. *)
Definition not_found : fork_ret := Child ExecFails 0 Reaped.

Definition not_found_env : env :=
  scripted
    [steady_start;
     tick 0 2000000; tick 0 3000000; tick 0 28000500;
     tick 0 29000500; tick 0 30000500; tick 0 55001000;
     tick 0 56001000; tick 0 57001000; tick 0 82001500;
     tick 0 83001500; tick 0 84001500]
    [not_found; not_found; not_found].

(** A clock that is a whole second past the start of the window when the
    budget is first looked at. *)
Definition late_env : env :=
  scripted [tick 0 0; tick 1 0; tick 1 1000] [].

(** * Properties *)

(** ** Wait statuses: decoding what was encoded *)

Section StatusBits.

Lemma WIFEXITED_exited code : WIFEXITED (wstatus (Exited code)) = true.
Proof.
  unfold WIFEXITED, WTERMSIG, wstatus.
  change 127 with (Z.ones 7).
  rewrite Z.land_ones, Z.shiftl_mul_pow2 by lia.
  change (2 ^ 8) with (2 * 2 ^ 7).
  rewrite Z.mul_assoc, Z.mod_mul by lia.
  reflexivity.
Qed.

Lemma WEXITSTATUS_exited code :
  0 <= code <= 255 -> WEXITSTATUS (wstatus (Exited code)) = code.
Proof.
  intros Hc. unfold WEXITSTATUS, wstatus.
  change 65280 with (Z.shiftl 255 8).
  rewrite <- Z.shiftl_land, Z.shiftr_shiftl_l, Z.sub_diag, Z.shiftl_0_r by lia.
  rewrite <- Z.land_assoc, Z.land_diag.
  change 255 with (Z.ones 8).
  rewrite Z.land_ones by lia.
  apply Z.mod_small. change (2 ^ 8) with 256. lia.
Qed.

Lemma WTERMSIG_signaled sig core :
  1 <= sig <= 126 -> WTERMSIG (wstatus (Signaled sig core)) = sig.
Proof.
  intros Hs. unfold WTERMSIG, wstatus.
  rewrite Z.land_lor_distr_l, <- Z.land_assoc, Z.land_diag.
  replace (Z.land (if core then 128 else 0) 127) with 0
    by (destruct core; reflexivity).
  rewrite Z.lor_0_r.
  change 127 with (Z.ones 7).
  rewrite Z.land_ones by lia.
  apply Z.mod_small. change (2 ^ 7) with 128. lia.
Qed.

Lemma WIFEXITED_signaled sig core :
  1 <= sig <= 126 -> WIFEXITED (wstatus (Signaled sig core)) = false.
Proof.
  intros Hs. unfold WIFEXITED. rewrite WTERMSIG_signaled by assumption.
  apply Z.eqb_neq. lia.
Qed.

End StatusBits.

(** ** The monad: reading a computation step by step *)

Lemma bind_Ret {A B} (m : M A) (k : A -> M B) w b w' :
  bind m k w = Ret b w' ->
  exists a w1, m w = Ret a w1 /\ k a w1 = Ret b w'.
Proof.
  unfold bind. destruct (m w) as [a w1| |]; try discriminate.
  intros H. exists a, w1. split; [reflexivity | exact H].
Qed.

Lemma wait_child_eq status eintr fin :
  wait_child status eintr fin =
  match fin with Reaped => Some status | WaitError => None end.
Proof. induction eintr as [|k IH]; simpl; [reflexivity | exact IH]. Qed.

Lemma now_monotonic_Ret E w t w' :
  now_monotonic E w = Ret t w' ->
  exists ts, clock E (clk w) = Some ts /\ t = seconds ts /\ w' = ticked w.
Proof.
  unfold now_monotonic. destruct (clock E (clk w)) as [ts|]; try discriminate.
  intros H. inversion H. exists ts. auto.
Qed.

Lemma now_monotonic_ok E w ts :
  clock E (clk w) = Some ts -> now_monotonic E w = Ret (seconds ts) (ticked w).
Proof. intros H. unfold now_monotonic. rewrite H. reflexivity. Qed.

(** What [run_once] does, case by case on what the oracle answers. *)
Lemma run_once_unfold E cmd w :
  run_once E cmd w =
  match clock E (clk w) with
  | None => Exit EXIT_FAILURE (emit_ev (EvStderr PerrorClock) (ticked w))
  | Some ts0 =>
      let w1 := {| clk := S (clk w); forks := S (forks w);
                   log := EvFork (match proc E cmd (forks w) with
                                  | ForkError => false
                                  | Child _ _ _ => true
                                  end) :: log w |} in
      match proc E cmd (forks w) with
      | ForkError => Ret (-1, None) (emit_ev (EvStderr PerrorFork) w1)
      | Child prog _ WaitError =>
          Ret (-1, None) (emit_ev (EvStderr PerrorWaitpid) w1)
      | Child prog _ Reaped =>
          match clock E (S (clk w)) with
          | None => Exit EXIT_FAILURE (emit_ev (EvStderr PerrorClock) (ticked w1))
          | Some ts1 =>
              Ret (classify (wstatus (child prog)),
                   Some (dsub (seconds ts1) (seconds ts0))) (ticked w1)
          end
      end
  end.
Proof.
  unfold run_once, bind, now_monotonic at 1.
  destruct (clock E (clk w)) as [ts0|]; [|reflexivity].
  unfold fork; simpl.
  destruct (proc E cmd (forks w)) as [|prog eintr fin]; [reflexivity|].
  rewrite wait_child_eq. destruct fin; [|reflexivity].
  unfold now_monotonic; simpl.
  destruct (clock E (S (clk w))); reflexivity.
Qed.

(** ** The order of binary64 numbers *)

Section DoubleOrder.

Ltac cmp_cases :=
  repeat match goal with
  | H : context [Z.compare ?a ?b] |- _ => destruct (Z.compare_spec a b)
  | |- context [Z.compare ?a ?b] => destruct (Z.compare_spec a b)
  | H : context [Pos.compare_cont Eq ?a ?b] |- _ =>
      change (Pos.compare_cont Eq a b) with (Pos.compare a b) in H
  | |- context [Pos.compare_cont Eq ?a ?b] =>
      change (Pos.compare_cont Eq a b) with (Pos.compare a b)
  | H : context [Pos.compare ?a ?b] |- _ => destruct (Pos.compare_spec a b)
  | |- context [Pos.compare ?a ?b] => destruct (Pos.compare_spec a b)
  end.

Lemma dle_refl x : is_nan x = false -> dle x x = true.
Proof.
  unfold dle, SFleb, SFcompare.
  destruct x as [s|s| |s m e]; try destruct s; simpl; intros; try reflexivity; try discriminate;
  cmp_cases; simpl; try reflexivity; try lia.
Qed.

Lemma dlt_dle x y : dlt x y = true -> dle x y = true.
Proof.
  unfold dlt, dle, SFltb, SFleb. destruct (SFcompare x y) as [[]|]; auto.
Qed.

Lemma not_dlt_dle x y : is_nan x = false -> is_nan y = false -> dlt x y = false -> dle y x = true.
Proof.
  unfold dlt, dle, SFltb, SFleb, SFcompare.
  destruct x as [s|s| |s m e], y as [s'|s'| |s' m' e']; try destruct s; try destruct s'; simpl; intros; try reflexivity; try discriminate;
  cmp_cases; simpl in *; try reflexivity; try discriminate; try lia.
Qed.

Lemma dle_trans x y z : dle x y = true -> dle y z = true -> dle x z = true.
Proof.
  unfold dle, SFleb, SFcompare.
  destruct x as [s|s| |s m e], y as [s'|s'| |s' m' e'], z as [s''|s''| |s'' m'' e''];
  try destruct s; try destruct s'; try destruct s''; simpl; intros; try reflexivity; try discriminate;
  cmp_cases; simpl in *; try reflexivity; try discriminate; try lia.
Qed.

Lemma digits2_pos_size m : digits2_pos m = Pos.size m.
Proof. induction m; simpl; congruence. Qed.

Lemma valid_finite_bounds s m e :
  valid (S754_finite s m e) = true ->
  -1074 <= e /\ Z.pos m < 2 ^ 53 /\ (-1074 < e -> 2 ^ 52 <= Z.pos m).
Proof.
  unfold valid, valid_binary, bounded, canonical_mantissa, fexp, emin, prec, emax.
  rewrite digits2_pos_size. intros H.
  apply andb_true_iff in H. destruct H as [H _]. apply Z.eqb_eq in H.
  pose proof (Pos.size_gt m) as Hgt. pose proof (Pos.size_le m) as Hle.
  apply Pos2Z.pos_lt_pos in Hgt. apply Pos2Z.pos_le_pos in Hle.
  rewrite Pos2Z.inj_pow in Hgt, Hle. rewrite Pos2Z.inj_xO in Hle.
  set (d := Z.pos (Pos.size m)) in *.
  assert (Hd : 0 < d) by (unfold d; lia).
  repeat split.
  - lia.
  - assert (d <= 53) by lia.
    apply Z.lt_le_trans with (2 ^ d); [exact Hgt|].
    apply Z.pow_le_mono_r; lia.
  - intros He. assert (d = 53) by lia.
    rewrite H0 in Hle. change (2 ^ 53) with (2 * 2 ^ 52) in Hle. lia.
Qed.

Lemma scaled_lt m1 e1 m2 e2 :
  -1074 <= e1 -> e1 < e2 -> Z.pos m1 < 2 ^ 53 -> 2 ^ 52 <= Z.pos m2 ->
  Z.pos m1 * 2 ^ (e1 + 1074) < Z.pos m2 * 2 ^ (e2 + 1074).
Proof.
  intros H1 H2 Hm1 Hm2.
  replace (e2 + 1074) with ((e1 + 1074) + (e2 - e1)) by lia.
  rewrite (Z.pow_add_r 2 (e1 + 1074) (e2 - e1)) by lia.
  assert (Hp : 0 < 2 ^ (e1 + 1074)) by (apply Z.pow_pos_nonneg; lia).
  assert (Hq : 2 ^ 1 <= 2 ^ (e2 - e1)) by (apply Z.pow_le_mono_r; lia).
  change (2 ^ 1) with 2 in Hq. change (2 ^ 53) with (2 * 2 ^ 52) in Hm1.
  set (P := 2 ^ (e1 + 1074)) in *. set (Q := 2 ^ (e2 - e1)) in *.
  set (K := 2 ^ 52) in *.
  assert (HK : 0 < K) by (unfold K; lia).
  apply Z.lt_le_trans with (2 * K * P).
  - apply Z.mul_lt_mono_pos_r; assumption.
  - replace (2 * K * P) with (K * (P * 2)) by ring.
    apply Z.mul_le_mono_nonneg; try lia.
    apply Z.mul_le_mono_nonneg_l; lia.
Qed.

Lemma dle_units x y :
  valid x = true -> valid y = true ->
  is_finite x = true -> is_finite y = true ->
  dle x y = true -> units x <= units y.
Proof.
  intros Vx Vy Fx Fy.
  destruct x as [s|s| |s m e], y as [s'|s'| |s' m' e']; try discriminate;
    unfold dle, SFleb, SFcompare, units.
  - destruct s'; [discriminate|]. intros _.
    assert (0 < 2 ^ (e' + 1074)) by (apply Z.pow_pos_nonneg; apply valid_finite_bounds in Vy; lia).
    nia.
  - destruct s; [|discriminate]. intros _.
    assert (0 < 2 ^ (e + 1074)) by (apply Z.pow_pos_nonneg; apply valid_finite_bounds in Vx; lia).
    nia.
  - apply valid_finite_bounds in Vx, Vy.
    destruct Vx as (Ex & Mx & Nx), Vy as (Ey & My & Ny).
    assert (0 < 2 ^ (e + 1074)) by (apply Z.pow_pos_nonneg; lia).
    assert (0 < 2 ^ (e' + 1074)) by (apply Z.pow_pos_nonneg; lia).
    destruct s, s'; try discriminate; intros H1.
    + destruct (Z.compare_spec e e') as [Heq|Hlt|Hgt]; try discriminate.
      * subst e'. change (Pos.compare_cont Eq m m') with (Pos.compare m m') in H1.
        destruct (Pos.compare_spec m m'); try discriminate; simpl in H1; try discriminate; nia.
      * pose proof (scaled_lt m' e' m e Ey Hgt My (Nx ltac:(lia))). lia.
    + nia.
    + destruct (Z.compare_spec e e') as [Heq|Hlt|Hgt]; try discriminate.
      * subst e'. change (Pos.compare_cont Eq m m') with (Pos.compare m m') in H1.
        destruct (Pos.compare_spec m m'); try discriminate; nia.
      * pose proof (scaled_lt m e m' e' Ex Hlt Mx (Ny ltac:(lia))). lia.
Qed.

(** The difference of two finite doubles has the sign the order says. *)

Lemma shr_1_nonneg mrs : 0 <= shr_m mrs -> 0 <= shr_m (shr_1 mrs).
Proof.
  destruct mrs as [m r s]. simpl.
  destruct m as [|p|p]; [| destruct p | destruct p]; simpl; lia.
Qed.

Lemma iter_pos_invariant {A} (P : A -> Prop) (f : A -> A) :
  (forall a, P a -> P (f a)) -> forall p a, P a -> P (iter_pos f p a).
Proof.
  intros Hf. induction p as [p IH|p IH|]; intros a Ha; simpl; auto.
Qed.

Lemma shr_fexp_nonneg m e l :
  0 <= m -> 0 <= shr_m (fst (shr_fexp prec emax m e l)).
Proof.
  intros Hm. unfold shr_fexp, shr.
  assert (H0 : 0 <= shr_m (shr_record_of_loc m l))
    by (destruct l as [|[]]; exact Hm).
  destruct (fexp prec emax (Zdigits2 m + e) - e) as [|p|p]; simpl; auto.
  apply (iter_pos_invariant (fun mrs => 0 <= shr_m mrs)); auto.
  apply shr_1_nonneg.
Qed.

Lemma round_nearest_even_nonneg m l : 0 <= m -> 0 <= round_nearest_even m l.
Proof.
  intros Hm. destruct l as [|[]]; simpl; try lia.
  destruct (Z.even m); lia.
Qed.

Lemma round_aux_nonneg m e l :
  0 <= m -> dle dzero (binary_round_aux prec emax false m e l) = true.
Proof.
  intros Hm. unfold binary_round_aux.
  pose proof (shr_fexp_nonneg m e l Hm) as H1.
  destruct (shr_fexp prec emax m e l) as [mrs' e']. simpl in H1.
  pose proof (shr_fexp_nonneg _ e' loc_Exact
                (round_nearest_even_nonneg _ (loc_of_shr_record mrs') H1)) as H2.
  destruct (shr_fexp prec emax _ e' loc_Exact) as [mrs'' e'']. simpl in H2.
  destruct (shr_m mrs'') as [|p|p]; [reflexivity | | lia].
  destruct (e'' <=? emax - prec); reflexivity.
Qed.

Lemma normalize_nonneg m e :
  0 <= m -> dle dzero (binary_normalize prec emax m e false) = true.
Proof.
  intros Hm. destruct m as [|p|p]; [reflexivity | | lia].
  unfold binary_normalize, binary_round.
  destruct (shl_align p e _) as [mz ez]. apply round_aux_nonneg. lia.
Qed.

Lemma iter_xO m d : Z.pos (Pos.iter xO m d) = Z.pos m * 2 ^ Z.pos d.
Proof.
  induction d as [|d IH] using Pos.peano_ind.
  - simpl. lia.
  - rewrite Pos.iter_succ, Pos2Z.inj_xO, IH, Pos2Z.inj_succ, Z.pow_succ_r by lia.
    ring.
Qed.

Lemma shl_align_units m e ez :
  -1074 <= ez -> ez <= e ->
  Z.pos (fst (shl_align m e ez)) * 2 ^ (ez + 1074) = Z.pos m * 2 ^ (e + 1074).
Proof.
  intros H1 H2. unfold shl_align.
  destruct (ez - e) as [|d|d] eqn:Hd; cbn [fst].
  - replace ez with e by lia. reflexivity.
  - lia.
  - rewrite iter_xO. replace (e + 1074) with (Z.pos d + (ez + 1074)) by lia.
    rewrite (Z.pow_add_r 2 (Z.pos d) (ez + 1074)) by lia. ring.
Qed.

Lemma dsub_nonneg x y :
  finite_double x -> finite_double y ->
  dle y x = true -> dle dzero (dsub x y) = true.
Proof.
  intros (Vx & Fx) (Vy & Fy) Hle.
  pose proof (dle_units y x Vy Vx Fy Fx Hle) as Hu.
  destruct x as [sx|sx| |sx mx ex], y as [sy|sy| |sy my ey]; try discriminate.
  - destruct sx, sy; reflexivity.
  - destruct sy; [reflexivity | discriminate].
  - exact Hle.
  - unfold dsub, SFsub. apply normalize_nonneg.
    destruct (valid_finite_bounds _ _ _ Vx) as (Ex & _).
    destruct (valid_finite_bounds _ _ _ Vy) as (Ey & _).
    pose proof (shl_align_units mx ex (Z.min ex ey) ltac:(lia) ltac:(lia)) as Ax.
    pose proof (shl_align_units my ey (Z.min ex ey) ltac:(lia) ltac:(lia)) as Ay.
    assert (HP : 0 < 2 ^ (Z.min ex ey + 1074)) by (apply Z.pow_pos_nonneg; lia).
    unfold units in Hu.
    set (P := 2 ^ (Z.min ex ey + 1074)) in *.
    set (ax := Z.pos (fst (shl_align mx ex (Z.min ex ey)))) in *.
    set (ay := Z.pos (fst (shl_align my ey (Z.min ex ey)))) in *.
    rewrite <- Ax, <- Ay in Hu.
    unfold cond_Zopp. destruct sx, sy; nia.
Qed.

End DoubleOrder.

(** ** Rounding: how far a double sum and quotient are from the exact ones *)

(** *** Shifting a mantissa right *)

Lemma shr_1_div2 mrs : shr_m (shr_1 mrs) = Z.div2 (shr_m mrs) \/ shr_m mrs < 0.
Proof.
  destruct mrs as [m r s]. simpl.
  destruct m as [|p|p]; [left; reflexivity | destruct p; left; reflexivity | right; lia].
Qed.

Lemma shr_1_half mrs : 0 <= shr_m mrs -> shr_m (shr_1 mrs) = shr_m mrs / 2.
Proof.
  intros H. destruct (shr_1_div2 mrs) as [E|E]; [|lia].
  rewrite E. apply Z.div2_div.
Qed.

Lemma iter_shr_1 p : forall mrs,
  0 <= shr_m mrs ->
  shr_m (iter_pos shr_1 p mrs) = shr_m mrs / 2 ^ Z.pos p.
Proof.
  assert (Hinv : forall q mrs, 0 <= shr_m mrs -> 0 <= shr_m (iter_pos shr_1 q mrs)).
  { intros q. apply (iter_pos_invariant (fun mrs => 0 <= shr_m mrs)).
    apply shr_1_nonneg. }
  induction p as [p IH|p IH|]; intros mrs H; simpl iter_pos.
  - rewrite IH, IH, shr_1_half by (auto using shr_1_nonneg).
    rewrite !Z.div_div by (try apply Z.pow_pos_nonneg; lia).
    f_equal. change (Z.pos p~1) with (Z.succ (2 * Z.pos p)).
    rewrite Z.pow_succ_r, Z.pow_twice_r by lia. ring.
  - rewrite IH, IH by auto.
    rewrite !Z.div_div by (try apply Z.pow_pos_nonneg; lia).
    f_equal. change (Z.pos p~0) with (2 * Z.pos p).
    rewrite Z.pow_twice_r. ring.
  - rewrite shr_1_half by exact H. reflexivity.
Qed.

(** What [shr_fexp] leaves of a mantissa: it is divided by [2 ^ n] for the
    [n] binary digits it has too many. *)
Lemma shr_fexp_spec m e l :
  0 <= m ->
  let n := Z.max 0 (fexp prec emax (Zdigits2 m + e) - e) in
  shr_m (fst (shr_fexp prec emax m e l)) = m / 2 ^ n /\
  snd (shr_fexp prec emax m e l) = e + n /\
  (n = 0 -> fst (shr_fexp prec emax m e l) = shr_record_of_loc m l).
Proof.
  intros Hm n. unfold shr_fexp, shr. subst n.
  assert (H0 : shr_m (shr_record_of_loc m l) = m) by (destruct l as [|[]]; reflexivity).
  destruct (fexp prec emax (Zdigits2 m + e) - e) as [|p|p] eqn:Hn; simpl fst; simpl snd.
  - rewrite Z.max_l by lia. simpl. rewrite Z.div_1_r, Z.add_0_r. auto.
  - rewrite Z.max_r by lia. rewrite iter_shr_1 by lia. rewrite H0.
    repeat split. lia.
  - rewrite Z.max_l by lia. simpl. rewrite Z.div_1_r, Z.add_0_r. auto.
Qed.

(** *** The number of binary digits *)

Lemma Zdigits2_bounds m :
  0 < m -> 2 ^ (Zdigits2 m - 1) <= m < 2 ^ Zdigits2 m.
Proof.
  destruct m as [|p|p]; try lia. intros _. simpl Zdigits2.
  rewrite digits2_pos_size.
  pose proof (Pos.size_gt p) as Hgt. pose proof (Pos.size_le p) as Hle.
  apply Pos2Z.pos_lt_pos in Hgt. apply Pos2Z.pos_le_pos in Hle.
  rewrite Pos2Z.inj_pow in Hgt, Hle.
  change (Z.pos p~0) with (2 * Z.pos p) in Hle.
  split; [|exact Hgt].
  replace (Z.pos (Pos.size p)) with (Z.succ (Z.pos (Pos.size p) - 1)) in Hle by lia.
  rewrite Z.pow_succ_r in Hle by lia. lia.
Qed.

Lemma Zdigits2_nonneg m : 0 <= m -> 0 <= Zdigits2 m.
Proof. destruct m; simpl; lia. Qed.

Lemma Zdigits2_le m d : 0 <= m -> 0 <= d -> m < 2 ^ d -> Zdigits2 m <= d.
Proof.
  intros Hm Hd Hlt. destruct (Z.eq_dec m 0) as [->|Hne]; [simpl; lia|].
  destruct (Zdigits2_bounds m ltac:(lia)) as (Hlo & _).
  destruct (Z.le_gt_cases (Zdigits2 m) d) as [|Hgt]; [assumption|].
  assert (2 ^ d <= 2 ^ (Zdigits2 m - 1)) by (apply Z.pow_le_mono_r; lia).
  lia.
Qed.

Lemma round_nearest_even_cases m l :
  round_nearest_even m l = m \/ round_nearest_even m l = m + 1.
Proof. destruct l as [|[]]; simpl; auto. destruct (Z.even m); auto. Qed.

Lemma shifted_lt m e :
  0 <= m ->
  let n := Z.max 0 (fexp prec emax (Zdigits2 m + e) - e) in
  m / 2 ^ n < 2 ^ 53 /\ -1074 <= e + n /\
  (0 < n -> -1074 < e + n -> 2 ^ 52 <= m / 2 ^ n).
Proof.
  intros Hm n. subst n. unfold fexp, emin, prec, emax.
  set (d := Zdigits2 m).
  assert (Hd : 0 <= d) by (apply Zdigits2_nonneg; exact Hm).
  set (n := Z.max 0 (Z.max (d + e - 53) (3 - 1024 - 53) - e)).
  assert (Hn : 0 <= n) by lia.
  assert (Hp : 0 < 2 ^ n) by (apply Z.pow_pos_nonneg; lia).
  split; [|split].
  - apply Z.div_lt_upper_bound; [exact Hp|].
    rewrite <- Z.pow_add_r by lia.
    destruct (Z.eq_dec m 0) as [->|Hne]; [apply Z.pow_pos_nonneg; lia|].
    destruct (Zdigits2_bounds m ltac:(lia)) as (_ & Hhi). fold d in Hhi.
    apply Z.lt_le_trans with (2 ^ d); [exact Hhi|].
    apply Z.pow_le_mono_r; lia.
  - lia.
  - intros Hpos Hnorm.
    assert (Hn' : n = d - 53) by lia.
    assert (Hm0 : 0 < m).
    { destruct (Z.eq_dec m 0) as [E|E]; [|lia]. subst m. unfold d in Hn'.
      simpl in Hn'. lia. }
    destruct (Zdigits2_bounds m Hm0) as (Hlo & _). fold d in Hlo.
    apply Z.div_le_lower_bound; [exact Hp|].
    rewrite Z.mul_comm, <- Z.pow_add_r by lia.
    replace (52 + n) with (d - 1) by lia. exact Hlo.
Qed.

Lemma round_aux_spec m e l :
  0 <= m ->
  let n := Z.max 0 (fexp prec emax (Zdigits2 m + e) - e) in
  exists m1,
    (m1 = m / 2 ^ n \/ m1 = m / 2 ^ n + 1) /\
    (l = loc_Exact -> n = 0 -> m1 = m) /\
    rounds_to (binary_round_aux prec emax false m e l) m1 (e + n).
Proof.
  intros Hm n.
  destruct (shr_fexp_spec m e l Hm) as (S1 & S2 & S3). fold n in S1, S2, S3.
  destruct (shifted_lt m e Hm) as (B1 & B2 & _). fold n in B1, B2.
  unfold binary_round_aux.
  destruct (shr_fexp prec emax m e l) as [mrs' e'] eqn:E1. simpl in S1, S2, S3.
  set (m1 := round_nearest_even (shr_m mrs') (loc_of_shr_record mrs')).
  assert (Hm1 : m1 = m / 2 ^ n \/ m1 = m / 2 ^ n + 1)
    by (unfold m1; rewrite <- S1; apply round_nearest_even_cases).
  assert (Hdiv : 0 <= m / 2 ^ n)
    by (apply Z.div_pos; [exact Hm | apply Z.pow_pos_nonneg; lia]).
  assert (Hm1pos : 0 <= m1) by lia.
  exists m1. split; [exact Hm1|]. split.
  { intros -> Hn0. specialize (S3 Hn0). unfold m1. rewrite S3. reflexivity. }
  destruct (shr_fexp_spec m1 e' loc_Exact Hm1pos) as (T1 & T2 & _).
  destruct (shr_fexp prec emax m1 e' loc_Exact) as [mrs'' e''] eqn:E2.
  simpl in T1, T2. subst e'.
  set (n2 := Z.max 0 (fexp prec emax (Zdigits2 m1 + (e + n)) - (e + n))) in *.
  assert (Hcase : (n2 = 0 /\ m1 < 2 ^ 53) \/ (n2 = 1 /\ m1 = 2 ^ 53)).
  { destruct (Z.eq_dec m1 (2 ^ 53)) as [E|E].
    - right. split; [|exact E]. unfold n2. rewrite E.
      change (Zdigits2 (2 ^ 53)) with 54.
      unfold fexp, emin, prec, emax. lia.
    - left. assert (Hlt : m1 < 2 ^ 53) by lia. split; [|exact Hlt].
      pose proof (Zdigits2_le m1 53 Hm1pos ltac:(lia) Hlt).
      unfold n2, fexp, emin, prec, emax. lia. }
  unfold rounds_to.
  destruct Hcase as [(N0 & Hlt)|(N1 & Heq)].
  - rewrite N0 in T1, T2. simpl in T1. rewrite Z.div_1_r in T1.
    rewrite Z.add_0_r in T2. subst e''.
    rewrite T1. destruct m1 as [|p|p]; [reflexivity| |lia].
    destruct (Z.leb_spec (e + n) (emax - prec)) as [Hle|Hgt];
      [|unfold emax, prec in Hgt; lia].
    rewrite Z.sub_diag. simpl. split; [lia|]. split; [exact Hlt | left; reflexivity].
  - rewrite N1 in T1, T2. subst e''. rewrite T1, Heq.
    change (2 ^ 53 / 2 ^ 1) with (Z.pos (4503599627370496)).
    destruct (Z.leb_spec (e + n + 1) (emax - prec)) as [Hle|Hgt];
      [|unfold emax, prec in Hgt; lia].
    replace (e + n + 1 - (e + n)) with 1 by lia.
    split; [reflexivity|]. split; [reflexivity | right; split; reflexivity].
Qed.

(** *** Addition *)

Lemma shl_align_spec m e t :
  snd (shl_align m e t) = Z.min e t /\
  Z.pos (fst (shl_align m e t)) = Z.pos m * 2 ^ (e - Z.min e t).
Proof.
  unfold shl_align. destruct (t - e) as [|d|d] eqn:Hd; cbn [fst snd].
  - replace (Z.min e t) with e by lia. rewrite Z.sub_diag. simpl. lia.
  - replace (Z.min e t) with e by lia. rewrite Z.sub_diag. simpl. lia.
  - replace (Z.min e t) with t by lia. rewrite iter_xO.
    replace (e - t) with (Z.pos d) by lia. auto.
Qed.

(** The value [m1 * 2 ^ e1] that a rounding result stands for, in units. *)
Lemma rounds_to_units r m1 e1 :
  -1074 <= e1 -> rounds_to r m1 e1 -> is_finite r = true ->
  units r = m1 * 2 ^ (e1 + 1074) /\ nonneg_bounded r.
Proof.
  intros He Hr Hf. destruct r as [[|]|[|]| |[|] mf ef]; try discriminate;
    cbn [rounds_to] in Hr; try contradiction.
  - subst m1. simpl. split; [reflexivity | exact I].
  - destruct Hr as (Hv & Hlt & Hef). split.
    + unfold units. rewrite <- Hv.
      replace (ef + 1074) with (ef - e1 + (e1 + 1074)) by lia.
      rewrite Z.pow_add_r by lia. ring.
    + simpl. split; [lia | exact Hlt].
Qed.

(** Rounding an exact non-negative value [mz * 2 ^ ez]: the result is off
    by a factor of at most [1 + 2^-52] either way. *)
Lemma round_exact_enclosure mz ez :
  0 < mz -> -1074 <= ez ->
  let r := binary_round_aux prec emax false mz ez loc_Exact in
  is_finite r = true ->
  nonneg_bounded r /\
  two52 * units r <= (two52 + 1) * (mz * 2 ^ (ez + 1074)) /\
  two52 * (mz * 2 ^ (ez + 1074)) <= (two52 + 1) * units r.
Proof.
  intros Hm He r Hf. subst r.
  destruct (round_aux_spec mz ez loc_Exact ltac:(lia)) as (m1 & Hm1 & Hex & Hr).
  destruct (shifted_lt mz ez ltac:(lia)) as (B1 & B2 & B3).
  set (n := Z.max 0 (fexp prec emax (Zdigits2 mz + ez) - ez)) in *.
  destruct (rounds_to_units _ _ _ B2 Hr Hf) as (Hu & Hb).
  split; [exact Hb|]. rewrite Hu. clear Hu Hb Hr Hf.
  assert (HP : 0 < 2 ^ (ez + 1074)) by (apply Z.pow_pos_nonneg; lia).
  destruct (Z.eq_dec n 0) as [N0|N0].
  - rewrite (Hex eq_refl N0), N0, Z.add_0_r.
    set (v := mz * 2 ^ (ez + 1074)). assert (0 <= v) by (unfold v; nia).
    unfold two52. lia.
  - assert (Hn : 0 < n) by lia.
    specialize (B3 Hn ltac:(lia)).
    replace (ez + n + 1074) with (n + (ez + 1074)) by lia.
    rewrite Z.pow_add_r by lia.
    assert (H2n : 0 < 2 ^ n) by (apply Z.pow_pos_nonneg; lia).
    pose proof (Z.div_mod mz (2 ^ n) ltac:(lia)) as Hdm.
    pose proof (Z.mod_pos_bound mz (2 ^ n) H2n) as Hrem.
    set (m' := mz / 2 ^ n) in *. set (rem := mz mod 2 ^ n) in *.
    set (P := 2 ^ (ez + 1074)) in *. set (U := 2 ^ n * P).
    assert (HU : 0 < U) by (unfold U; nia).
    set (a := m' * U).
    assert (Hv : mz * P = a + rem * P) by (unfold a, U; rewrite Hdm; ring).
    assert (HremP : 0 <= rem * P < U) by (unfold U; nia).
    assert (HKU : two52 * U <= a).
    { unfold a. apply Z.mul_le_mono_nonneg_r; [lia|]. exact B3. }
    assert (Hr1 : m1 * U = a \/ m1 * U = a + U).
    { destruct Hm1 as [->| ->]; [left; reflexivity | right; unfold a; ring]. }
    rewrite Hv. unfold two52 in *.
    destruct Hr1 as [-> | ->]; lia.
Qed.

Lemma binary_normalize_enclosure m e :
  0 < m -> -1074 <= e ->
  let r := binary_normalize prec emax m e false in
  is_finite r = true ->
  nonneg_bounded r /\
  two52 * units r <= (two52 + 1) * (m * 2 ^ (e + 1074)) /\
  two52 * (m * 2 ^ (e + 1074)) <= (two52 + 1) * units r.
Proof.
  intros Hm He. destruct m as [|p|p]; try lia.
  unfold binary_normalize, binary_round.
  destruct (shl_align_spec p e (fexp prec emax (Z.pos (digits2_pos p) + e)))
    as (S1 & S2).
  destruct (shl_align p e _) as [mz ez]. cbn [fst snd] in S1, S2.
  assert (Hez : -1074 <= ez /\ ez <= e).
  { rewrite S1. unfold fexp, emin, prec, emax. lia. }
  cbv zeta. intros Hf.
  destruct (round_exact_enclosure (Z.pos mz) ez ltac:(lia) ltac:(lia) Hf)
    as (Hb & H1 & H2).
  assert (Hv : Z.pos mz * 2 ^ (ez + 1074) = Z.pos p * 2 ^ (e + 1074)).
  { rewrite S2, <- S1, <- Z.mul_assoc.
    rewrite <- (Z.pow_add_r 2 (e - ez) (ez + 1074)) by lia.
    do 2 f_equal. lia. }
  rewrite Hv in H1, H2. auto.
Qed.

(** A double addition of non-negative numbers that does not overflow. *)
Lemma dadd_enclosure x y :
  nonneg_bounded x -> nonneg_bounded y ->
  is_finite (dadd x y) = true ->
  nonneg_bounded (dadd x y) /\
  two52 * units (dadd x y) <= (two52 + 1) * (units x + units y) /\
  two52 * (units x + units y) <= (two52 + 1) * units (dadd x y).
Proof.
  intros Hx Hy.
  destruct x as [sx| | |[|] mx ex], y as [sy| | |[|] my ey];
    try (exfalso; exact Hx); try (exfalso; exact Hy).
  - intros _. destruct sx, sy; simpl; unfold two52; lia.
  - intros _. cbn [dadd SFadd]. destruct Hy as (Ey & My).
    assert (0 < 2 ^ (ey + 1074)) by (apply Z.pow_pos_nonneg; lia).
    split; [split; assumption|]. unfold units, two52. nia.
  - intros _. cbn [dadd SFadd]. destruct Hx as (Ex & Mx).
    assert (0 < 2 ^ (ex + 1074)) by (apply Z.pow_pos_nonneg; lia).
    split; [split; assumption|]. unfold units, two52. nia.
  - destruct Hx as (Ex & Mx), Hy as (Ey & My).
    unfold dadd, SFadd. cbn [cond_Zopp].
    pose proof (shl_align_units mx ex (Z.min ex ey) ltac:(lia) ltac:(lia)) as Ax.
    pose proof (shl_align_units my ey (Z.min ex ey) ltac:(lia) ltac:(lia)) as Ay.
    set (ax := Z.pos (fst (shl_align mx ex (Z.min ex ey)))) in *.
    set (ay := Z.pos (fst (shl_align my ey (Z.min ex ey)))) in *.
    intros Hf.
    destruct (binary_normalize_enclosure (ax + ay) (Z.min ex ey)
                ltac:(unfold ax, ay; lia) ltac:(lia) Hf) as (Hb & H1 & H2).
    split; [exact Hb|].
    assert (Ux : units (S754_finite false mx ex)
                 = ax * 2 ^ (Z.min ex ey + 1074)).
    { rewrite Ax. unfold units. apply Z.mul_1_l. }
    assert (Uy : units (S754_finite false my ey)
                 = ay * 2 ^ (Z.min ex ey + 1074)).
    { rewrite Ay. unfold units. apply Z.mul_1_l. }
    rewrite Ux, Uy, <- Z.mul_add_distr_r. split; assumption.
Qed.

(** *** The running sum *)

Lemma nonneg_bounded_units x : nonneg_bounded x -> 0 <= units x.
Proof.
  destruct x as [s|s| |[|] m e]; cbn [nonneg_bounded units];
    try lia; try contradiction.
Qed.

Lemma duration_nonneg_bounded d :
  finite_double d -> dle dzero d = true -> nonneg_bounded d.
Proof.
  intros (V & F) Hle.
  destruct d as [s|s| |[|] m e]; try discriminate; simpl; trivial.
  destruct (valid_finite_bounds _ _ _ V) as (He & Hm & _). split; assumption.
Qed.

Lemma sum_units_nonneg ds : Forall nonneg_bounded ds -> 0 <= sum_units ds.
Proof.
  induction 1 as [|d ds Hd _ IH]; simpl; [lia|].
  pose proof (nonneg_bounded_units d Hd). lia.
Qed.

Lemma dadd_not_finite x y :
  is_finite x = false -> nonneg_bounded y -> is_finite (dadd x y) = false.
Proof.
  destruct x as [sx|sx| |sx mx ex], y as [sy|sy| |[|] my ey];
    simpl; intros; try discriminate; try contradiction; reflexivity.
Qed.

Lemma fold_dadd_not_finite ds : forall s,
  is_finite s = false -> Forall nonneg_bounded ds ->
  is_finite (fold_left dadd ds s) = false.
Proof.
  induction ds as [|d ds IH]; intros s Hs Hds; simpl; [exact Hs|].
  inversion Hds; subst. apply IH; [apply dadd_not_finite|]; assumption.
Qed.

(** Adding up non-negative doubles from left to right without overflow:
    each addition costs a factor of at most [1 + 2^-52]. *)
Lemma fold_dadd_enclosure ds : forall s,
  nonneg_bounded s -> Forall nonneg_bounded ds ->
  is_finite (fold_left dadd ds s) = true ->
  nonneg_bounded (fold_left dadd ds s) /\
  two52 ^ Z.of_nat (List.length ds) * units (fold_left dadd ds s)
    <= (two52 + 1) ^ Z.of_nat (List.length ds) * (units s + sum_units ds) /\
  two52 ^ Z.of_nat (List.length ds) * (units s + sum_units ds)
    <= (two52 + 1) ^ Z.of_nat (List.length ds) * units (fold_left dadd ds s).
Proof.
  induction ds as [|d ds IH]; intros s Hs Hds Hf.
  - cbn [fold_left List.length sum_units fold_right Z.of_nat].
    rewrite !Z.pow_0_r. split; [exact Hs|]. lia.
  - inversion Hds as [|d' ds' Hd Hds']; subst.
    cbn [fold_left] in *.
    assert (Hf1 : is_finite (dadd s d) = true).
    { destruct (is_finite (dadd s d)) eqn:E; [reflexivity|].
      rewrite (fold_dadd_not_finite ds _ E Hds') in Hf. discriminate. }
    destruct (dadd_enclosure s d Hs Hd Hf1) as (B1 & U1 & L1).
    destruct (IH _ B1 Hds' Hf) as (Br & Ur & Lr).
    split; [exact Br|].
    cbn [List.length sum_units fold_right]. fold (sum_units ds).
    rewrite Nat2Z.inj_succ, !Z.pow_succ_r by lia.
    pose proof (sum_units_nonneg ds Hds') as Hsum.
    set (A := two52 ^ Z.of_nat (List.length ds)) in *.
    set (B := (two52 + 1) ^ Z.of_nat (List.length ds)) in *.
    assert (HA : 0 < A) by (apply Z.pow_pos_nonneg; unfold two52; lia).
    assert (HB : 0 < B) by (apply Z.pow_pos_nonneg; unfold two52; lia).
    set (ur := units (fold_left dadd ds (dadd s d))) in *.
    set (u1 := units (dadd s d)) in *.
    set (us := units s) in *. set (ud := units d) in *.
    set (S := sum_units ds) in *.
    assert (HK : 0 < two52) by (unfold two52; lia).
    split.
    + apply Z.le_trans with (two52 * (B * (u1 + S))).
      * rewrite <- Z.mul_assoc. apply Z.mul_le_mono_nonneg_l; lia.
      * replace (two52 * (B * (u1 + S))) with (B * (two52 * u1 + two52 * S)) by ring.
        replace ((two52 + 1) * B * (us + (ud + S)))
          with (B * ((two52 + 1) * (us + ud) + (two52 * S + S))) by ring.
        apply Z.mul_le_mono_nonneg_l; lia.
    + apply Z.le_trans with ((two52 + 1) * (A * (u1 + S))).
      * replace (two52 * A * (us + (ud + S)))
          with (A * (two52 * (us + ud) + two52 * S)) by ring.
        replace ((two52 + 1) * (A * (u1 + S)))
          with (A * ((two52 + 1) * u1 + (two52 * S + S))) by ring.
        apply Z.mul_le_mono_nonneg_l; lia.
      * rewrite <- Z.mul_assoc. apply Z.mul_le_mono_nonneg_l; lia.
Qed.

(** *** The divisor *)

(** [(double) n] is exact for a count below [2^53]. *)
Lemma of_int_spec n :
  0 < n < 2 ^ 53 ->
  exists my ey,
    of_int n = S754_finite false my ey /\ ey <= 0 /\
    Z.pos my = n * 2 ^ (- ey).
Proof.
  intros (Hn0 & Hn). destruct n as [|p|p]; try lia.
  unfold of_int, binary_normalize, binary_round.
  destruct (shl_align_spec p 0 (fexp prec emax (Z.pos (digits2_pos p) + 0)))
    as (S1 & S2).
  destruct (shl_align p 0 _) as [mz ez]. cbn [fst snd] in S1, S2.
  pose proof (Zdigits2_le (Z.pos p) 53 ltac:(lia) ltac:(lia) Hn) as Hd.
  pose proof (Zdigits2_bounds (Z.pos p) ltac:(lia)) as (_ & Hhi).
  change (Zdigits2 (Z.pos p)) with (Z.pos (digits2_pos p)) in Hd, Hhi.
  set (dp := Z.pos (digits2_pos p)) in *.
  assert (Hez : ez = dp - 53).
  { rewrite S1. unfold fexp, emin, prec, emax. lia. }
  rewrite <- S1, Z.sub_0_l in S2.
  assert (Hmz : Z.pos mz < 2 ^ 53).
  { rewrite S2. replace 53 with (dp + (- ez)) by lia.
    rewrite (Z.pow_add_r 2 dp (- ez)) by lia.
    apply Z.mul_lt_mono_pos_r; [apply Z.pow_pos_nonneg; lia | exact Hhi]. }
  destruct (round_aux_spec (Z.pos mz) ez loc_Exact ltac:(lia))
    as (m1 & _ & Hex & Hr).
  pose proof (Zdigits2_le (Z.pos mz) 53 ltac:(lia) ltac:(lia) Hmz) as Hdz.
  assert (N0 : Z.max 0 (fexp prec emax (Zdigits2 (Z.pos mz) + ez) - ez) = 0).
  { unfold fexp, emin, prec, emax. lia. }
  rewrite N0 in Hr. specialize (Hex eq_refl N0). subst m1.
  rewrite Z.add_0_r in Hr.
  destruct (binary_round_aux prec emax false (Z.pos mz) ez loc_Exact)
    as [[|]|[|]| |[|] mf ef]; cbn [rounds_to] in Hr; try contradiction; try lia.
  destruct Hr as (Hv & Hmf & [He|(_ & He)]); [|lia].
  subst ef. rewrite Z.sub_diag, Z.pow_0_r, Z.mul_1_r in Hv.
  exists mf, ez. split; [reflexivity|]. split; [lia|].
  rewrite Hv. exact S2.
Qed.

(** *** The quotient *)

(** Dividing a non-negative double by a count: the quotient is off by a
    factor of at most [1 + 2^-52], or by less than one unit where it is
    subnormal. *)
Lemma ddiv_enclosure x my ey n :
  nonneg_bounded x -> 0 < n -> ey <= 0 -> Z.pos my = n * 2 ^ (- ey) ->
  is_finite (ddiv x (S754_finite false my ey)) = true ->
  0 <= units (ddiv x (S754_finite false my ey)) /\
  two52 * (n * units (ddiv x (S754_finite false my ey)))
    <= (two52 + 1) * units x + two52 * n /\
  two52 * units x
    <= (two52 + 1) * (n * units (ddiv x (S754_finite false my ey))) + two52 * n.
Proof.
  intros Hx Hn Hey Hmy.
  destruct x as [sx| | |[|] mx ex]; try (exfalso; exact Hx).
  - intros _. cbn [ddiv SFdiv units]. unfold two52. lia.
  - destruct Hx as (Ex & Mx).
    unfold ddiv, SFdiv, SFdiv_core_binary. cbn [xorb].
    set (d1 := Zdigits2 (Z.pos mx)). set (d2 := Zdigits2 (Z.pos my)).
    set (e' := Z.min (fexp prec emax (d1 + ex - (d2 + ey))) (ex - ey)).
    set (s := ex - ey - e').
    assert (Hd1 : 1 <= d1 <= 53).
    { split; [unfold d1; simpl; lia|].
      apply Zdigits2_le; [lia | lia | exact Mx]. }
    assert (Hd2 : 1 <= d2) by (unfold d2; simpl; lia).
    assert (He' : -1074 <= e' /\ e' <= ex - ey).
    { unfold e', fexp, emin, prec, emax. lia. }
    assert (Hs : 0 <= s) by (unfold s; lia).
    set (m' := match s with
               | 0 => Z.pos mx
               | Z.pos _ => Z.shiftl (Z.pos mx) s
               | Z.neg _ => 0
               end).
    assert (Hm' : m' = Z.pos mx * 2 ^ s).
    { unfold m'. destruct s as [|p|p] eqn:Es; [simpl; lia | | lia].
      apply Z.shiftl_mul_pow2. lia. }
    clearbody m'.
    pose proof (Z_div_mod m' (Z.pos my) ltac:(lia)) as Hdiv.
    destruct (Z.div_eucl m' (Z.pos my)) as [q r]. destruct Hdiv as (Hq & Hr).
    assert (H2s : 0 < 2 ^ s) by (apply Z.pow_pos_nonneg; lia).
    assert (Hm'pos : 0 < m') by (rewrite Hm'; apply Z.mul_pos_pos; lia).
    assert (Hq0 : 0 <= q) by nia.
    set (l := new_location (Z.pos my) r).
    destruct (round_aux_spec q e' l Hq0) as (m1 & Hm1 & _ & Hrd).
    destruct (shifted_lt q e' Hq0) as (_ & B2 & B3).
    set (nsh := Z.max 0 (fexp prec emax (Zdigits2 q + e') - e')) in *.
    intros Hf.
    destruct (rounds_to_units _ _ _ B2 Hrd Hf) as (Hu & _).
    rewrite Hu. clear Hu Hrd Hf.
    assert (Hnsh : 0 <= nsh) by (unfold nsh; lia).
    set (P := 2 ^ (e' + 1074)).
    set (E := 2 ^ (- ey)) in *.
    set (W := 2 ^ nsh).
    assert (HP : 0 < P) by (apply Z.pow_pos_nonneg; lia).
    assert (HE : 0 < E) by (apply Z.pow_pos_nonneg; lia).
    assert (HW : 0 < W) by (apply Z.pow_pos_nonneg; lia).
    assert (HU : 2 ^ (e' + nsh + 1074) = W * P).
    { unfold W, P. rewrite <- Z.pow_add_r by lia. f_equal. lia. }
    rewrite HU.
    set (ux := units (S754_finite false mx ex)).
    assert (Hux : m' * P = ux * E).
    { unfold ux, units, P, E. rewrite Hm', Z.mul_1_l.
      rewrite <- !Z.mul_assoc, <- !Z.pow_add_r by lia.
      do 2 f_equal. unfold s. lia. }
    assert (Hux0 : 0 <= ux) by (unfold ux, units; lia).
    (* the quotient before rounding *)
    pose proof (Z.div_mod q W ltac:(lia)) as Hdm.
    pose proof (Z.mod_pos_bound q W HW) as Hrem.
    fold W in Hm1, B3.
    set (m'' := q / W) in *. set (rem := q mod W) in *.
    set (V := q * P).
    assert (HV1 : n * V <= ux).
    { apply (Z.mul_le_mono_pos_l _ _ E HE).
      replace (E * (n * V)) with (Z.pos my * q * P) by (rewrite Hmy; unfold V; ring).
      rewrite (Z.mul_comm E ux), <- Hux.
      apply Z.mul_le_mono_nonneg_r; lia. }
    assert (HV2 : ux < n * (V + P)).
    { apply (Z.mul_lt_mono_pos_l E _ _ HE).
      replace (E * (n * (V + P))) with ((Z.pos my * q + Z.pos my) * P)
        by (rewrite Hmy; unfold V; ring).
      rewrite (Z.mul_comm E ux), <- Hux.
      apply Z.mul_lt_mono_pos_r; lia. }
    set (lo := m'' * (W * P)).
    assert (Hlo1 : lo <= V).
    { unfold lo, V. rewrite Z.mul_assoc.
      apply Z.mul_le_mono_nonneg_r; lia. }
    assert (Hlo2 : V + P <= lo + W * P).
    { unfold lo, V.
      replace (q * P + P) with ((q + 1) * P) by ring.
      replace (m'' * (W * P) + W * P) with ((m'' * W + W) * P) by ring.
      apply Z.mul_le_mono_nonneg_r; lia. }
    assert (Hm''0 : 0 <= m'') by (apply Z.div_pos; lia).
    set (a := n * lo). set (b := n * (W * P)).
    assert (Ha : a <= ux).
    { apply Z.le_trans with (n * V); [|exact HV1].
      apply Z.mul_le_mono_nonneg_l; lia. }
    assert (Hb : ux < a + b).
    { apply Z.lt_le_trans with (n * (V + P)); [exact HV2|].
      unfold a, b. rewrite <- Z.mul_add_distr_l.
      apply Z.mul_le_mono_nonneg_l; lia. }
    assert (Hnur : n * (m1 * (W * P)) = a \/ n * (m1 * (W * P)) = a + b).
    { unfold a, b, lo. destruct Hm1 as [-> | ->]; [left; reflexivity | right; ring]. }
    assert (Hcase : b = n \/ two52 * b <= a).
    { destruct (Z.eq_dec (e' + nsh) (-1074)) as [Emin|Enorm].
      - left. unfold b. rewrite <- HU.
        replace (e' + nsh + 1074) with 0 by lia. simpl. lia.
      - right. assert (HK : two52 <= m'').
        { destruct (Z.eq_dec nsh 0) as [N0|N0].
          - (* no shift: the division itself yields 53 digits *)
            assert (Ee' : e' = d1 + ex - (d2 + ey) - 53).
            { unfold e', fexp, emin, prec, emax in *. lia. }
            assert (Es : s = 52 + d2 - (d1 - 1)) by (unfold s; lia).
            unfold m''. unfold W. rewrite N0. simpl (2 ^ 0). rewrite Z.div_1_r.
            destruct (Zdigits2_bounds (Z.pos mx) ltac:(lia)) as (Lx & _).
            destruct (Zdigits2_bounds (Z.pos my) ltac:(lia)) as (_ & Uy).
            fold d1 in Lx. fold d2 in Uy.
            assert (Hbig : 2 ^ 52 * 2 ^ d2 <= m').
            { rewrite Hm'. rewrite <- Z.pow_add_r by lia.
              replace (52 + d2) with ((d1 - 1) + s) by lia.
              rewrite (Z.pow_add_r 2 (d1 - 1) s) by lia.
              apply Z.mul_le_mono_nonneg_r; lia. }
            destruct (Z.le_gt_cases two52 q) as [|Hlt]; [assumption|exfalso].
            assert (Z.pos my * q + r < Z.pos my * 2 ^ 52).
            { apply Z.lt_le_trans with (Z.pos my * (q + 1)); [lia|].
              apply Z.mul_le_mono_nonneg_l; [lia|]. unfold two52 in Hlt. lia. }
            assert (Z.pos my * 2 ^ 52 < 2 ^ 52 * 2 ^ d2).
            { rewrite (Z.mul_comm (2 ^ 52)).
              apply Z.mul_lt_mono_pos_r; [lia | exact Uy]. }
            lia.
          - apply B3; lia. }
        unfold a, b, lo.
        replace (two52 * (n * (W * P))) with (n * (two52 * (W * P))) by ring.
        apply Z.mul_le_mono_nonneg_l; [lia|].
        apply Z.mul_le_mono_nonneg_r; [|exact HK].
        apply Z.lt_le_incl, Z.mul_pos_pos; assumption. }
    split.
    { apply Z.mul_nonneg_nonneg; [|lia].
      destruct Hm1 as [-> | ->]; lia. }
    fold a in Hnur. unfold two52 in *.
    destruct Hnur as [-> | ->], Hcase as [Hc | Hc]; lia.
Qed.

(** *** The mean *)

Lemma ddiv_not_finite x y :
  is_finite x = false -> is_finite y = true -> is_finite (ddiv x y) = false.
Proof.
  destruct x as [sx|sx| |sx mx ex], y as [sy|sy| |sy my ey];
    simpl; intros; try discriminate; reflexivity.
Qed.

Lemma pow_le_pow_succ k : 0 <= k -> two52 ^ k <= (two52 + 1) ^ k.
Proof. intros Hk. apply Z.pow_le_mono_l. unfold two52. lia. Qed.

(** The double mean of non-negative doubles, against any exact bounds
    [lo] and [hi] of their exact mean. *)
Lemma mean_enclosure ds lo hi :
  Forall nonneg_bounded ds ->
  0 < Z.of_nat (List.length ds) < 2 ^ 53 ->
  Z.of_nat (List.length ds) * lo <= sum_units ds
    <= Z.of_nat (List.length ds) * hi ->
  0 <= lo ->
  let n := Z.of_nat (List.length ds) in
  let s := fold_left dadd ds dzero in
  let avg := ddiv s (of_int n) in
  is_finite avg = true ->
  is_finite s = true /\
  (le_upto n (units s) (sum_units ds) 0 /\
   le_upto n (sum_units ds) (units s) 0) /\
  (le_upto 1 (n * units avg) (units s) n /\
   le_upto 1 (units s) (n * units avg) n) /\
  le_upto (n + 1) lo (units avg) 1 /\
  le_upto (n + 1) (units avg) hi 1.
Proof.
  intros Hds Hn Hsum Hlo n s avg Hf. fold n in Hn, Hsum.
  destruct (of_int_spec n Hn) as (my & ey & Hy & Hey & Hmy).
  assert (Hfs : is_finite s = true).
  { destruct (is_finite s) eqn:E; [reflexivity|].
    unfold avg in Hf. rewrite ddiv_not_finite in Hf; [discriminate|exact E|].
    rewrite Hy. reflexivity. }
  destruct (fold_dadd_enclosure ds dzero I Hds Hfs) as (Bs & Us & Ls).
  fold n s in Us, Ls. change (units dzero) with 0 in Us, Ls.
  rewrite Z.add_0_l in Us, Ls.
  unfold avg in *. rewrite Hy in *.
  destruct (ddiv_enclosure s my ey n Bs ltac:(lia) Hey Hmy Hf)
    as (Ha0 & Ua & La).
  pose proof (nonneg_bounded_units s Bs) as Hs0.
  pose proof (sum_units_nonneg ds Hds) as HS0.
  set (ua := units (ddiv s (S754_finite false my ey))) in *.
  set (us := units s) in *. set (S := sum_units ds) in *.
  assert (Hua0 : 0 <= n * ua) by (apply Z.mul_nonneg_nonneg; lia).
  unfold le_upto. rewrite !Z.pow_1_r, !Z.add_0_r.
  change (n + 1) with (Z.succ n). rewrite !Z.pow_succ_r by lia.
  set (A := two52 ^ n) in *. set (B := (two52 + 1) ^ n) in *.
  assert (HA : 0 < A) by (apply Z.pow_pos_nonneg; unfold two52; lia).
  assert (HB : 0 < B) by (apply Z.pow_pos_nonneg; unfold two52; lia).
  assert (HAB : A <= B) by (apply pow_le_pow_succ; lia).
  assert (HK : 0 < two52) by (unfold two52; lia).
  split; [exact Hfs|].
  split; [split; assumption|].
  split; [split; lia|].
  split.
  - (* both sides multiplied by n, then through the sum *)
    apply (Z.mul_le_mono_pos_l _ _ n ltac:(lia)).
    apply Z.le_trans with (two52 * (A * S)).
    { replace (n * (two52 * A * lo)) with (two52 * (A * (n * lo))) by ring.
      apply Z.mul_le_mono_nonneg_l; [lia|].
      apply Z.mul_le_mono_nonneg_l; lia. }
    apply Z.le_trans with (B * (two52 * us)).
    { replace (B * (two52 * us)) with (two52 * (B * us)) by ring.
      apply Z.mul_le_mono_nonneg_l; lia. }
    replace (n * ((two52 + 1) * B * (ua + 1)))
      with (B * ((two52 + 1) * (n * ua) + (two52 + 1) * n)) by ring.
    apply Z.mul_le_mono_nonneg_l; lia.
  - apply (Z.mul_le_mono_pos_l _ _ n ltac:(lia)).
    apply Z.le_trans with (A * ((two52 + 1) * us + two52 * n)).
    { replace (n * (two52 * A * ua)) with (A * (two52 * (n * ua))) by ring.
      apply Z.mul_le_mono_nonneg_l; lia. }
    apply Z.le_trans with ((two52 + 1) * (B * S) + two52 * n * B).
    { replace (A * ((two52 + 1) * us + two52 * n))
        with ((two52 + 1) * (A * us) + two52 * n * A) by ring.
      apply Z.add_le_mono.
      - apply Z.mul_le_mono_nonneg_l; lia.
      - apply Z.mul_le_mono_nonneg_l; [lia | exact HAB]. }
    apply Z.le_trans with ((two52 + 1) * (B * (n * hi)) + two52 * n * B).
    { apply Z.add_le_mono_r. apply Z.mul_le_mono_nonneg_l; [lia|].
      apply Z.mul_le_mono_nonneg_l; lia. }
    replace (n * ((two52 + 1) * B * (hi + 1)))
      with ((two52 + 1) * (B * (n * hi)) + (two52 + 1) * n * B) by ring.
    apply Z.add_le_mono_l. apply Z.mul_le_mono_nonneg_r; lia.
Qed.

(** ** Logs *)

Lemma measured_app l1 l2 : measured (l1 ++ l2) = measured l2 ++ measured l1.
Proof.
  induction l1 as [|e l1 IH]; simpl.
  - now rewrite app_nil_r.
  - destruct e; rewrite ?IH, ?app_assoc; reflexivity.
Qed.

Lemma fork_calls_app l1 l2 :
  fork_calls (l1 ++ l2) = (fork_calls l1 + fork_calls l2)%nat.
Proof. unfold fork_calls. now rewrite filter_app, length_app. Qed.

Lemma children_app l1 l2 :
  children (l1 ++ l2) = (children l1 + children l2)%nat.
Proof. unfold children. now rewrite filter_app, length_app. Qed.

Lemma printed_app l1 l2 : printed (l1 ++ l2) = printed l1 ++ printed l2.
Proof. unfold printed. apply filter_app. Qed.

(** What a piece of the program added to the log: [evs], with as many
    calls of [fork] as [n], nothing printed and the runs [hist] folded. *)
Definition extends (w w' : world) (evs : list event) : Prop :=
  log w' = evs ++ log w /\
  forks w' = (forks w + fork_calls evs)%nat /\
  (clk w <= clk w')%nat.

Ltac log_facts :=
  unfold extends, fork_calls, children, printed; simpl;
  repeat split; try reflexivity; try lia.

Lemma extends_trans w1 w2 w3 evs1 evs2 :
  extends w1 w2 evs1 -> extends w2 w3 evs2 -> extends w1 w3 (evs2 ++ evs1).
Proof.
  intros (L1 & F1 & C1) (L2 & F2 & C2). repeat split.
  - now rewrite L2, L1, app_assoc.
  - rewrite F2, F1, fork_calls_app. lia.
  - lia.
Qed.

(** ** One run *)

(** A run that returns made exactly one call of [fork], read the clock
    at least once, printed nothing and folded nothing. *)
Lemma run_once_Ret E cmd w r w' :
  run_once E cmd w = Ret r w' ->
  exists evs,
    extends w w' evs /\ fork_calls evs = 1%nat /\
    measured evs = [] /\ printed evs = [] /\ (clk w < clk w')%nat.
Proof.
  rewrite run_once_unfold.
  destruct (clock E (clk w)) as [ts0|]; [|discriminate].
  cbv zeta.
  destruct (proc E cmd (forks w)) as [|prog eintr [|]].
  - intros H; inversion H; subst; clear H.
    exists [EvStderr PerrorFork; EvFork false]. log_facts.
  - destruct (clock E (S (clk w))) as [ts1|]; [|discriminate].
    intros H; inversion H; subst; clear H.
    exists [EvFork true]. log_facts.
  - intros H; inversion H; subst; clear H.
    exists [EvStderr PerrorWaitpid; EvFork true]. log_facts.
Qed.

(** A system error ([rc = -1]) stores nothing through [secs_out]; the other
    return codes are 0 and 1 and come with the measured time. *)
Lemma run_once_codes E cmd w rc out w' :
  run_once E cmd w = Ret (rc, out) w' ->
  (rc = -1 /\ out = None) \/
  ((rc = 0 \/ rc = 1) /\
   exists ts0 ts1, clock E (clk w) = Some ts0 /\ clock E (S (clk w)) = Some ts1 /\
                   out = Some (dsub (seconds ts1) (seconds ts0))).
Proof.
  rewrite run_once_unfold.
  destruct (clock E (clk w)) as [ts0|]; [|discriminate].
  cbv zeta.
  destruct (proc E cmd (forks w)) as [|prog eintr [|]].
  - intros H; inversion H; auto.
  - destruct (clock E (S (clk w))) as [ts1|]; [|discriminate].
    intros H; inversion H; subst; clear H. right. split.
    + unfold classify. destruct (_ && _); auto.
    + exists ts0, ts1. auto.
  - intros H; inversion H; auto.
Qed.

(** ** The warmup loop *)

Lemma warmup_Ret n E cmd : forall w u w',
  warmup n E cmd w = Ret u w' ->
  exists evs,
    extends w w' evs /\ fork_calls evs = n /\
    measured evs = [] /\ printed evs = [].
Proof.
  induction n as [|n IH]; intros w u w' H; simpl in H.
  - inversion H; subst. exists []. log_facts.
  - apply bind_Ret in H. destruct H as (r & w1 & H1 & H2).
    apply run_once_Ret in H1. destruct H1 as (evs1 & X1 & F1 & M1 & P1 & _).
    apply IH in H2. destruct H2 as (evs2 & X2 & F2 & M2 & P2).
    exists (evs2 ++ evs1). split; [|split; [|split]].
    + apply (extends_trans _ _ _ _ _ X1 X2).
    + rewrite fork_calls_app. lia.
    + rewrite measured_app, M1, M2. reflexivity.
    + rewrite printed_app, P1, P2. reflexivity.
Qed.

(** ** The timed loop *)

Lemma fold_stats_app st l1 l2 :
  fold_stats st (l1 ++ l2) = fold_stats (fold_stats st l1) l2.
Proof. unfold fold_stats. apply fold_left_app. Qed.

(** A timed loop that ends has folded, in order, exactly the runs it
    logged, one per call of [fork], and printed nothing. *)
Lemma measure_Ret fuel E cmd total_start dur : forall st w st' w',
  measure fuel E cmd total_start dur st w = Ret st' w' ->
  exists evs,
    extends w w' evs /\
    st' = fold_stats st (measured evs) /\
    fork_calls evs = List.length (measured evs) /\
    printed evs = [] /\ (clk w < clk w')%nat.
Proof.
  induction fuel as [|fuel IH]; intros st w st' w' H; simpl in H.
  - discriminate.
  - apply bind_Ret in H. destruct H as (t & w1 & H1 & H).
    apply now_monotonic_Ret in H1. destruct H1 as (ts & _ & _ & ->).
    destruct (dge (dsub t total_start) dur).
    + inversion H; subst; clear H. exists []. log_facts.
    + apply bind_Ret in H. destruct H as (r & w2 & H2 & H).
      destruct (LONG_MAX <=? runs st); [discriminate|].
      apply bind_Ret in H. destruct H as (u & w3 & H3 & H).
      inversion H3; subst w3; clear H3.
      apply run_once_Ret in H2. destruct H2 as (evs1 & X1 & F1 & M1 & P1 & C1).
      apply IH in H. destruct H as (evs2 & X2 & -> & F2 & P2 & C2).
      destruct X1 as (L1 & K1 & _), X2 as (L2 & K2 & _). simpl in *.
      exists (evs2 ++ EvRun (fst r) (secs_after (snd r)) :: evs1).
      unfold extends. repeat split.
      * rewrite L2, L1. now rewrite <- app_assoc.
      * rewrite K2, K1, fork_calls_app.
        change (fork_calls (EvRun (fst r) (secs_after (snd r)) :: evs1))
          with (fork_calls evs1). lia.
      * lia.
      * rewrite measured_app; simpl. rewrite M1; simpl. reflexivity.
      * rewrite fork_calls_app, measured_app, length_app; simpl.
        rewrite M1; simpl.
        change (fork_calls (EvRun (fst r) (secs_after (snd r)) :: evs1))
          with (fork_calls evs1). lia.
      * rewrite printed_app; simpl. now rewrite P2, P1.
      * lia.
Qed.

(** ** Options *)

(** The option loop either accepts every option, touching nothing, or
    stops at the first rejected one with a message and [EXIT_FAILURE]. *)
Lemma parse_options_cases opts : forall c w,
  (existsb rejected opts = false /\
   exists c', parse_options opts c w = Ret c' w /\
              (0 <= warmups c -> 0 <= warmups c')) \/
  (existsb rejected opts = true /\
   exists m, parse_options opts c w = Exit EXIT_FAILURE (emit_ev (EvStderr m) w)).
Proof.
  induction opts as [|o opts IH]; intros c w.
  - left. split; [reflexivity|]. exists c. split; [reflexivity | auto].
  - destruct o as [n|d|]; simpl.
    + destruct (Z.ltb_spec n 0) as [Hn|Hn]; simpl.
      * right. split; [reflexivity|]. now exists InvalidWarmup.
      * destruct (IH {| warmups := n; duration := duration c |} w)
          as [(Hr & c' & Hc & Hw)|(Hr & m & Hm)].
        -- left. split; [exact Hr|]. exists c'. split; [exact Hc|].
           intros _. apply Hw. exact Hn.
        -- right. split; [exact Hr|]. now exists m.
    + destruct (dle d dzero); simpl.
      * right. split; [reflexivity|]. now exists InvalidDuration.
      * destruct (IH {| warmups := warmups c; duration := d |} w)
          as [(Hr & c' & Hc & Hw)|(Hr & m & Hm)].
        -- left. split; [exact Hr|]. exists c'. split; [exact Hc|]. exact Hw.
        -- right. split; [exact Hr|]. now exists m.
    + right. split; [reflexivity|]. now exists Usage.
Qed.

Lemma parse_options_Ret opts c w c' w' :
  parse_options opts c w = Ret c' w' ->
  w' = w /\ existsb rejected opts = false.
Proof.
  intros H.
  destruct (parse_options_cases opts c w) as [(Hr & c1 & Hc & _)|(_ & m & Hm)].
  - rewrite Hc in H. inversion H. auto.
  - rewrite Hm in H. discriminate.
Qed.

(** ** The whole program *)

(** A timed phase that ends has printed the report of the statistics
    folded from the runs it logged, and returns by their [fails]. *)
Lemma timed_phase_Ret fuel E cmd c w1 code w :
  timed_phase fuel E cmd c w1 = Ret code w ->
  exists evs total_elapsed,
    let st := fold_stats zero_stats (measured evs) in
    log w = report_lines c st total_elapsed ++ evs ++ log w1 /\
    forks w = (forks w1 + fork_calls evs)%nat /\
    fork_calls evs = List.length (measured evs) /\
    printed evs = [] /\
    code = (if fails st >? 0 then EXIT_FAILURE else EXIT_SUCCESS).
Proof.
  unfold timed_phase. intros H.
  apply bind_Ret in H. destruct H as (t0 & wa & Ha & H).
  apply now_monotonic_Ret in Ha. destruct Ha as (ts0 & _ & _ & ->).
  apply bind_Ret in H. destruct H as (st & wb & Hb & H).
  apply measure_Ret in Hb. destruct Hb as (evs & (L & F & _) & -> & Fk & P & _).
  apply bind_Ret in H. destruct H as (t1 & wc & Hc & H).
  apply now_monotonic_Ret in Hc. destruct Hc as (ts1 & _ & _ & ->).
  unfold report, bind, emit, ret in H. simpl in H.
  inversion H; subst; clear H. simpl in *.
  exists evs, (dsub t1 t0). simpl. rewrite L. auto.
Qed.

Lemma main_Ret fuel E opts cmd code w :
  main fuel E opts cmd init_world = Ret code w ->
  exists c w1,
    parse_options opts default_config init_world = Ret c init_world /\
    0 <= warmups c /\ cmd <> [] /\
    warmup (Z.to_nat (warmups c)) E cmd init_world = Ret tt w1 /\
    timed_phase fuel E cmd c w1 = Ret code w.
Proof.
  unfold main. intros H.
  apply bind_Ret in H. destruct H as (c & w0 & Hp & H).
  destruct (parse_options_cases opts default_config init_world)
    as [(_ & c1 & Hc & Hw)|(_ & m & Hm)]; [|rewrite Hm in Hp; discriminate].
  rewrite Hc in Hp. inversion Hp; subst c1 w0; clear Hp.
  destruct cmd as [|a cmd]; [discriminate|].
  apply bind_Ret in H. destruct H as ([] & w1 & Hwu & H).
  exists c, w1. repeat split; auto.
  - apply Hw. simpl. lia.
  - discriminate.
Qed.

(** The statistics of a completed program are those of the timed phase
    alone: the log holds the warmup's events, the timed runs and the
    report, and only the timed runs are folded. *)
Lemma main_log fuel E opts cmd code w :
  main fuel E opts cmd init_world = Ret code w ->
  exists c wu evs total_elapsed,
    parse_options opts default_config init_world = Ret c init_world /\
    log w = report_lines c (stats_of w) total_elapsed ++ evs ++ wu /\
    measured wu = [] /\ printed wu = [] /\
    fork_calls wu = Z.to_nat (warmups c) /\
    measured evs = measured (log w) /\
    fork_calls evs = List.length (measured evs) /\
    printed evs = [] /\
    code = (if fails (stats_of w) >? 0 then EXIT_FAILURE else EXIT_SUCCESS).
Proof.
  intros H. apply main_Ret in H.
  destruct H as (c & w1 & Hp & _ & _ & Hw & Ht).
  apply warmup_Ret in Hw. destruct Hw as (wu & (Lw & _ & _) & Fw & Mw & Pw).
  simpl in Lw. rewrite app_nil_r in Lw. subst wu.
  apply timed_phase_Ret in Ht.
  destruct Ht as (evs & total & L & _ & Fk & P & Hcode). cbv zeta in *.
  assert (Hm : measured (log w) = measured evs).
  { rewrite L. unfold report_lines. simpl.
    rewrite measured_app, Mw. reflexivity. }
  exists c, (log w1), evs, total. unfold stats_of. rewrite Hm.
  repeat split; auto.
Qed.

(** ** Leaving through [exit] *)

Lemma bind_Exit {A B} (m : M A) (k : A -> M B) w code w' :
  bind m k w = Exit code w' ->
  m w = Exit code w' \/ exists a w1, m w = Ret a w1 /\ k a w1 = Exit code w'.
Proof.
  unfold bind. destruct (m w) as [a w1|c w1|]; try discriminate.
  - intros H. right. exists a, w1. auto.
  - intros H. inversion H; subst. left. reflexivity.
Qed.

Lemma now_monotonic_Exit E w code w' :
  now_monotonic E w = Exit code w' -> code = EXIT_FAILURE.
Proof.
  unfold now_monotonic. destruct (clock E (clk w)); intros H; inversion H; auto.
Qed.

Lemma run_once_Exit E cmd w code w' :
  run_once E cmd w = Exit code w' -> code = EXIT_FAILURE.
Proof.
  rewrite run_once_unfold.
  destruct (clock E (clk w)); [|intros H; inversion H; auto].
  cbv zeta. destruct (proc E cmd (forks w)) as [|prog eintr [|]]; try discriminate.
  destruct (clock E (S (clk w))); intros H; inversion H; auto.
Qed.

Lemma warmup_Exit n E cmd : forall w code w',
  warmup n E cmd w = Exit code w' -> code = EXIT_FAILURE.
Proof.
  induction n as [|n IH]; intros w code w' H; simpl in H; [discriminate|].
  apply bind_Exit in H. destruct H as [H|(a & w1 & _ & H)].
  - apply (run_once_Exit _ _ _ _ _ H).
  - apply (IH _ _ _ H).
Qed.

Lemma measure_Exit fuel E cmd total_start dur : forall st w code w',
  measure fuel E cmd total_start dur st w = Exit code w' -> code = EXIT_FAILURE.
Proof.
  induction fuel as [|fuel IH]; intros st w code w' H; simpl in H; [discriminate|].
  apply bind_Exit in H. destruct H as [H|(t & w1 & _ & H)].
  - apply (now_monotonic_Exit _ _ _ _ H).
  - destruct (dge (dsub t total_start) dur); [discriminate|].
    apply bind_Exit in H. destruct H as [H|(r & w2 & _ & H)].
    + apply (run_once_Exit _ _ _ _ _ H).
    + destruct (LONG_MAX <=? runs st); [discriminate|].
      apply bind_Exit in H. destruct H as [H|(u & w3 & _ & H)]; [discriminate|].
      apply (IH _ _ _ _ H).
Qed.

(** However the program leaves through [exit] (or the [return] of the
    option loop), it is with [EXIT_FAILURE]. *)
Lemma main_Exit fuel E opts cmd code w :
  main fuel E opts cmd init_world = Exit code w -> code = EXIT_FAILURE.
Proof.
  unfold main. intros H.
  apply bind_Exit in H. destruct H as [H|(c & w0 & _ & H)].
  - destruct (parse_options_cases opts default_config init_world)
      as [(_ & c1 & Hc & _)|(_ & m & Hm)]; [congruence|].
    rewrite Hm in H. inversion H. reflexivity.
  - destruct cmd as [|a cmd]; [inversion H; reflexivity|].
    apply bind_Exit in H. destruct H as [H|(u & w1 & _ & H)].
    + apply (warmup_Exit _ _ _ _ _ _ H).
    + unfold timed_phase in H.
      apply bind_Exit in H. destruct H as [H|(t0 & wa & _ & H)];
        [apply (now_monotonic_Exit _ _ _ _ H)|].
      apply bind_Exit in H. destruct H as [H|(st & wb & _ & H)];
        [apply (measure_Exit _ _ _ _ _ _ _ _ _ H)|].
      apply bind_Exit in H. destruct H as [H|(t1 & wc & _ & H)];
        [apply (now_monotonic_Exit _ _ _ _ H)|].
      unfold report, bind, emit, ret in H. discriminate.
Qed.

(** ** Folding runs into the statistics *)

Lemma fold_stats_cons st o l :
  fold_stats st (o :: l) = fold_stats (update_stats st (fst o) (snd o)) l.
Proof. reflexivity. Qed.

Lemma runs_fold l : forall st,
  runs (fold_stats st l) = runs st + Z.of_nat (List.length l).
Proof.
  induction l as [|o l IH]; intros st.
  - simpl. lia.
  - rewrite fold_stats_cons, IH. simpl. lia.
Qed.

Lemma fails_fold l : forall st,
  fails (fold_stats st l) = fails st + Z.of_nat (List.length (filter failed l)).
Proof.
  induction l as [|o l IH]; intros st.
  - simpl. lia.
  - rewrite fold_stats_cons, IH. simpl. unfold failed at 2.
    destruct (negb (fst o =? 0)); simpl; lia.
Qed.

Lemma sum_fold l : forall st,
  sum_s (fold_stats st l) = fold_left dadd (durations l) (sum_s st).
Proof.
  induction l as [|o l IH]; intros st.
  - reflexivity.
  - rewrite fold_stats_cons, IH. reflexivity.
Qed.

Lemma no_failed_Forall l :
  filter failed l = [] <-> Forall (fun o => fst o = 0) l.
Proof.
  induction l as [|o l IH]; simpl.
  - split; auto.
  - unfold failed at 1. destruct (Z.eqb_spec (fst o) 0) as [H0|H0]; simpl.
    + rewrite IH. split; intros H; [constructor; auto | now inversion H].
    + split; intros H; [discriminate | inversion H; contradiction].
Qed.

(** Past the first run, [min_s] and [max_s] are always one of the
    durations folded: no other value enters them. *)
Lemma min_max_In l : forall st D,
  0 < runs st -> In (min_s st) D -> In (max_s st) D ->
  In (min_s (fold_stats st l)) (D ++ durations l) /\
  In (max_s (fold_stats st l)) (D ++ durations l).
Proof.
  induction l as [|o l IH]; intros st D Hr Hmin Hmax.
  - simpl. rewrite app_nil_r. auto.
  - rewrite fold_stats_cons.
    replace (D ++ durations (o :: l)) with ((D ++ [snd o]) ++ durations l)
      by (rewrite <- app_assoc; reflexivity).
    apply IH; simpl.
    + lia.
    + destruct (Z.eqb_spec (runs st) 0); [lia|].
      destruct (dlt (snd o) (min_s st)); apply in_or_app; simpl; auto.
    + destruct (Z.eqb_spec (runs st) 0); [lia|].
      destruct (dgt (snd o) (max_s st)); apply in_or_app; simpl; auto.
Qed.

(** ** The program after the warmup *)

Section Continuation.

Variable E : env.
Variable w1 : world.

Lemma continues_ret {A} (a : A) : continues w1 (ret a) (ret a).
Proof. intros w. reflexivity. Qed.

Lemma continues_bind {A B} (m m' : M A) (k k' : A -> M B) :
  continues w1 m m' -> (forall a, continues w1 (k a) (k' a)) ->
  continues w1 (bind m k) (bind m' k').
Proof.
  intros Hm Hk w. unfold bind. rewrite Hm.
  destruct (m' w) as [a w'| |]; simpl; [apply Hk | reflexivity | reflexivity].
Qed.

Lemma continues_emit e : continues w1 (emit e) (emit e).
Proof. intros w. reflexivity. Qed.

Lemma continues_now : continues w1 (now_monotonic E) (now_monotonic (shift E w1)).
Proof.
  intros w. unfold now_monotonic. simpl.
  destruct (clock E (clk w + clk w1)); reflexivity.
Qed.

Lemma continues_fork cmd : continues w1 (fork E cmd) (fork (shift E w1) cmd).
Proof. intros w. reflexivity. Qed.

Lemma continues_run_once cmd :
  continues w1 (run_once E cmd) (run_once (shift E w1) cmd).
Proof.
  unfold run_once.
  apply continues_bind; [apply continues_now|]. intros t0.
  apply continues_bind; [apply continues_fork|]. intros [|prog eintr fin].
  - apply continues_bind; [apply continues_emit|]. intros _. apply continues_ret.
  - destruct (wait_child (wstatus (child prog)) eintr fin).
    + apply continues_bind; [apply continues_now|]. intros t1. apply continues_ret.
    + apply continues_bind; [apply continues_emit|]. intros _. apply continues_ret.
Qed.

Lemma continues_measure fuel cmd total_start dur : forall st,
  continues w1 (measure fuel E cmd total_start dur st)
               (measure fuel (shift E w1) cmd total_start dur st).
Proof.
  induction fuel as [|fuel IH]; intros st; simpl.
  - intros w. reflexivity.
  - apply continues_bind; [apply continues_now|]. intros t.
    destruct (dge (dsub t total_start) dur); [apply continues_ret|].
    apply continues_bind; [apply continues_run_once|]. intros r.
    destruct (LONG_MAX <=? runs st); [intros w; reflexivity|].
    apply continues_bind; [apply continues_emit|]. intros _. apply IH.
Qed.

Lemma continues_timed_phase fuel cmd c :
  continues w1 (timed_phase fuel E cmd c) (timed_phase fuel (shift E w1) cmd c).
Proof.
  unfold timed_phase.
  apply continues_bind; [apply continues_now|]. intros total_start.
  apply continues_bind; [apply continues_measure|]. intros st.
  apply continues_bind; [apply continues_now|]. intros t_end.
  apply continues_bind; [|intros _; apply continues_ret].
  unfold report.
  repeat (apply continues_bind; [apply continues_emit|]; intros _).
  apply continues_emit.
Qed.

End Continuation.

Lemma behind_init w1 : behind w1 init_world = w1.
Proof. destruct w1. reflexivity. Qed.

(** ** Termination *)

Section Termination.

Variable E : env.
Hypothesis clock_works : forall k, exists ts, clock E k = Some ts.

(** With a working clock a run always returns, one or two readings on. *)
Lemma run_once_returns cmd w :
  exists r w',
    run_once E cmd w = Ret r w' /\ (clk w < clk w' <= clk w + 2)%nat.
Proof.
  rewrite run_once_unfold.
  destruct (clock_works (clk w)) as (ts0 & ->). cbv zeta.
  destruct (proc E cmd (forks w)) as [|prog eintr [|]].
  - eexists; eexists; split; [reflexivity | simpl; lia].
  - destruct (clock_works (S (clk w))) as (ts1 & ->).
    eexists; eexists; split; [reflexivity | simpl; lia].
  - eexists; eexists; split; [reflexivity | simpl; lia].
Qed.

Lemma warmup_returns cmd n : forall w,
  exists w', warmup n E cmd w = Ret tt w' /\ (clk w' <= clk w + 2 * n)%nat.
Proof.
  induction n as [|n IH]; intros w; simpl.
  - exists w. split; [reflexivity | lia].
  - destruct (run_once_returns cmd w) as (r & w1 & Hr & Hc).
    destruct (IH w1) as (w' & Hw & Hc').
    exists w'. unfold bind. rewrite Hr. split; [exact Hw | lia].
Qed.

(** The timed loop ends once the clock has passed the budget: if every
    reading from the [N]-th on is at least [dur] after [total_start], some
    amount of fuel lets the loop return. *)
Lemma measure_terminates cmd total_start dur N :
  (forall k ts, (N <= k)%nat -> clock E k = Some ts ->
                dge (dsub (seconds ts) total_start) dur = true) ->
  forall n st w,
    (N - clk w <= n)%nat -> runs st + Z.of_nat n < LONG_MAX ->
    exists fuel st' w',
      measure fuel E cmd total_start dur st w = Ret st' w'.
Proof.
  intros Hlate. induction n as [|n IH]; intros st w Hn Hr.
  - destruct (clock_works (clk w)) as (ts & Hts).
    exists 1%nat, st, (ticked w). simpl. unfold bind.
    assert (Hk : (N <= clk w)%nat) by lia.
    rewrite (now_monotonic_ok _ _ _ Hts), (Hlate _ _ Hk Hts).
    reflexivity.
  - destruct (clock_works (clk w)) as (ts & Hts).
    destruct (dge (dsub (seconds ts) total_start) dur) eqn:Hge.
    + exists 1%nat, st, (ticked w). simpl. unfold bind.
      rewrite (now_monotonic_ok _ _ _ Hts), Hge. reflexivity.
    + destruct (run_once_returns cmd (ticked w)) as ([rc out] & w2 & Hrun & Hc).
      simpl in Hc.
      destruct (IH (update_stats st rc (secs_after out))
                   (emit_ev (EvRun rc (secs_after out)) w2))
        as (fuel & st' & w' & Hm).
      * simpl. lia.
      * simpl. lia.
      * exists (S fuel), st', w'. simpl. unfold bind at 1.
        rewrite (now_monotonic_ok _ _ _ Hts), Hge.
        unfold bind at 1. rewrite Hrun. simpl.
        destruct (Z.leb_spec LONG_MAX (runs st)); [lia|]. exact Hm.
Qed.

(** X1: the whole program returns from [main] when its options are accepted,
    it has a command, and the clock passes the budget after the start of
    the window, which is read within the first [2 * warmups + 1]
    readings. *)
Lemma main_terminates opts cmd c N :
  parse_options opts default_config init_world = Ret c init_world ->
  cmd <> [] ->
  Z.of_nat N < LONG_MAX ->
  (forall j k tj tk, (j <= 2 * Z.to_nat (warmups c))%nat -> (N <= k)%nat ->
     clock E j = Some tj -> clock E k = Some tk ->
     dge (dsub (seconds tk) (seconds tj)) (duration c) = true) ->
  exists fuel code w, main fuel E opts cmd init_world = Ret code w.
Proof.
  intros Hp Hcmd HN Hlate.
  destruct (warmup_returns cmd (Z.to_nat (warmups c)) init_world)
    as (w1 & Hw & Hc1). simpl in Hc1.
  destruct (clock_works (clk w1)) as (ts0 & Hts0).
  destruct (measure_terminates cmd (seconds ts0) (duration c) N
              (fun k ts Hk Hk' => Hlate _ _ _ _ Hc1 Hk Hts0 Hk')
              N zero_stats (ticked w1))
    as (fuel & st & w2 & Hm).
  { lia. }
  { simpl. lia. }
  destruct (clock_works (clk w2)) as (ts1 & Hts1).
  exists fuel. eexists. eexists.
  unfold main, bind at 1. rewrite Hp.
  destruct cmd as [|a cmd]; [congruence|].
  unfold bind at 1. rewrite Hw.
  unfold timed_phase, bind at 1. rewrite (now_monotonic_ok _ _ _ Hts0).
  unfold bind at 1. rewrite Hm.
  unfold bind at 1. rewrite (now_monotonic_ok _ _ _ Hts1).
  reflexivity.
Qed.

End Termination.

Lemma main_terminates_witness :
  exists fuel code w, main fuel ticking_env [] cmd_true init_world = Ret code w.
Proof.
  apply (main_terminates ticking_env (fun k => ex_intro _ _ eq_refl)
           [] cmd_true default_config 6).
  - reflexivity.
  - discriminate.
  - reflexivity.
  - intros j k tj tk Hj Hk Hcj Hck. simpl in Hj.
    assert (j = 0%nat) by lia. subst j.
    simpl in Hcj, Hck. replace (Nat.min k 6) with 6%nat in Hck by lia.
    inversion Hcj; inversion Hck; subst. vm_compute. reflexivity.
Defined.

(** ** What every measured run has in common *)

Section EveryRun.

Variable E : env.
Variable cmd : list string.
Variable Q : Z -> double -> Prop.
Hypothesis run_once_Q : forall w r w',
  run_once E cmd w = Ret r w' -> Q (fst r) (secs_after (snd r)).

Lemma measure_every_run fuel total_start dur : forall st w st' w',
  Forall (fun o => Q (fst o) (snd o)) (measured (log w)) ->
  measure fuel E cmd total_start dur st w = Ret st' w' ->
  Forall (fun o => Q (fst o) (snd o)) (measured (log w')).
Proof.
  induction fuel as [|fuel IH]; intros st w st' w' Hw H; simpl in H.
  - discriminate.
  - apply bind_Ret in H. destruct H as (t & w1 & H1 & H).
    apply now_monotonic_Ret in H1. destruct H1 as (ts & _ & _ & ->).
    destruct (dge (dsub t total_start) dur).
    + inversion H; subst. exact Hw.
    + apply bind_Ret in H. destruct H as (r & w2 & H2 & H).
      destruct (LONG_MAX <=? runs st); [discriminate|].
      apply bind_Ret in H. destruct H as (u & w3 & H3 & H).
      inversion H3; subst w3; clear H3.
      apply IH in H; [exact H|]. simpl.
      pose proof (run_once_Q _ _ _ H2) as Hq.
      apply run_once_Ret in H2. destruct H2 as (evs & (L & _) & _ & M & _).
      simpl in L. rewrite L, measured_app, M, app_nil_r.
      apply Forall_app. split; [exact Hw | constructor; [exact Hq | constructor]].
Qed.

Lemma main_every_run fuel opts code w :
  main fuel E opts cmd init_world = Ret code w ->
  Forall (fun o => Q (fst o) (snd o)) (measured (log w)).
Proof.
  intros H. apply main_Ret in H.
  destruct H as (c & w1 & _ & _ & _ & Hw & Ht).
  apply warmup_Ret in Hw. destruct Hw as (wu & (Lw & _) & _ & Mw & _).
  simpl in Lw. rewrite app_nil_r in Lw.
  unfold timed_phase in Ht.
  apply bind_Ret in Ht. destruct Ht as (t0 & wa & Ha & Ht).
  apply now_monotonic_Ret in Ha. destruct Ha as (ts0 & _ & _ & ->).
  apply bind_Ret in Ht. destruct Ht as (st & wb & Hb & Ht).
  apply measure_every_run in Hb; [|simpl; rewrite Lw, Mw; constructor].
  apply bind_Ret in Ht. destruct Ht as (t1 & wc & Hc & Ht).
  apply now_monotonic_Ret in Hc. destruct Hc as (ts1 & _ & _ & ->).
  unfold report, bind, emit, ret in Ht. simpl in Ht.
  inversion Ht; subst; clear Ht. simpl. exact Hb.
Qed.

End EveryRun.

(** ** C1: success and failure of a run *)

(** C1: a run that completes (the clock answers, [fork] creates the child
    and [waitpid] reaps it, however often it was interrupted) returns 0
    exactly when the child ended by a normal exit with code 0, and returns
    the same 1 for a non-zero exit code (127 after a failed [execvp]
    included) and for a death by signal; it stores the elapsed time. *)
Theorem run_once_classifies E cmd w prog eintr ts0 ts1 :
  clock E (clk w) = Some ts0 ->
  proc E cmd (forks w) = Child prog eintr Reaped ->
  clock E (S (clk w)) = Some ts1 ->
  well_formed (child prog) ->
  exists rc w',
    run_once E cmd w = Ret (rc, Some (dsub (seconds ts1) (seconds ts0))) w' /\
    (rc = 0 <-> child prog = Exited 0) /\
    (forall code, child prog = Exited code -> code <> 0 -> rc = 1) /\
    (forall sig core, child prog = Signaled sig core -> rc = 1).
Proof.
  intros H0 Hf H1 Hwf.
  exists (classify (wstatus (child prog))). eexists.
  split.
  - rewrite run_once_unfold, H0. cbv zeta. rewrite Hf, H1. reflexivity.
  - unfold classify. destruct (child prog) as [code|sig core]; simpl in Hwf.
    + rewrite WIFEXITED_exited, WEXITSTATUS_exited by exact Hwf. simpl.
      destruct (Z.eqb_spec code 0) as [Hc|Hc].
      * subst code. repeat split; auto; try congruence.
      * repeat split; try congruence; try discriminate.
    + rewrite WIFEXITED_signaled by exact Hwf. simpl.
      repeat split; try congruence; try discriminate.
Qed.

Lemma run_once_classifies_witness :
  exists rc w',
    run_once rough_env cmd_true (ticked (ticked init_world))
      = Ret (rc, Some (dsub (seconds (tick 12 2000)) (seconds (tick 10 2000)))) w' /\
    (rc = 0 <-> Signaled 9 false = Exited 0) /\
    (forall code, Signaled 9 false = Exited code -> code <> 0 -> rc = 1) /\
    (forall sig core, Signaled 9 false = Signaled sig core -> rc = 1).
Proof.
  apply (run_once_classifies rough_env cmd_true (ticked (ticked init_world))
           (ExecRuns (Signaled 9 false)) 2 (tick 10 2000) (tick 12 2000)).
  - reflexivity.
  - reflexivity.
  - reflexivity.
  - simpl. lia.
Defined.

(** ** C2: minimum, maximum and mean *)

Lemma finite_not_nan x : finite_double x -> is_nan x = false.
Proof. intros (_ & H). destruct x; simpl in *; congruence. Qed.

(** Past the first run [min_s] is below and [max_s] above every duration
    folded, when no duration is NaN. *)
Lemma min_max_bounds l : forall st D,
  0 < runs st ->
  Forall (fun d => is_nan d = false) D ->
  Forall (fun d => is_nan d = false) (durations l) ->
  In (min_s st) D -> In (max_s st) D ->
  Forall (fun d => dle (min_s st) d = true /\ dle d (max_s st) = true) D ->
  Forall (fun d => dle (min_s (fold_stats st l)) d = true /\
                   dle d (max_s (fold_stats st l)) = true)
         (D ++ durations l).
Proof.
  induction l as [|o l IH]; intros st D Hr HD Hl Hmin Hmax Hb.
  - simpl. rewrite app_nil_r. exact Hb.
  - rewrite fold_stats_cons.
    replace (D ++ durations (o :: l)) with ((D ++ [snd o]) ++ durations l)
      by (rewrite <- app_assoc; reflexivity).
    inversion Hl as [|d ds Hd Hds]; subst.
    assert (Nmin : is_nan (min_s st) = false)
      by (rewrite Forall_forall in HD; auto).
    assert (Nmax : is_nan (max_s st) = false)
      by (rewrite Forall_forall in HD; auto).
    apply IH; simpl; try exact Hds.
    + lia.
    + apply Forall_app. split; [exact HD | constructor; auto].
    + destruct (Z.eqb_spec (runs st) 0); [lia|].
      destruct (dlt (snd o) (min_s st)); apply in_or_app; simpl; auto.
    + destruct (Z.eqb_spec (runs st) 0); [lia|].
      destruct (dgt (snd o) (max_s st)); apply in_or_app; simpl; auto.
    + destruct (Z.eqb_spec (runs st) 0); [lia|].
      assert (Hmin' : dle (if dlt (snd o) (min_s st) then snd o else min_s st)
                          (min_s st) = true /\
                      dle (if dlt (snd o) (min_s st) then snd o else min_s st)
                          (snd o) = true).
      { destruct (dlt (snd o) (min_s st)) eqn:Hlt.
        - split; [apply dlt_dle; exact Hlt | apply dle_refl; exact Hd].
        - split; [apply dle_refl; exact Nmin | apply not_dlt_dle; auto]. }
      assert (Hmax' : dle (max_s st)
                          (if dgt (snd o) (max_s st) then snd o else max_s st)
                      = true /\
                      dle (snd o)
                          (if dgt (snd o) (max_s st) then snd o else max_s st)
                      = true).
      { destruct (dgt (snd o) (max_s st)) eqn:Hgt.
        - split; [apply dlt_dle; exact Hgt | apply dle_refl; exact Hd].
        - split; [apply dle_refl; exact Nmax | apply not_dlt_dle; auto]. }
      destruct Hmin' as (Hm1 & Hm2), Hmax' as (Hx1 & Hx2).
      apply Forall_app. split.
      * rewrite Forall_forall in *. intros d Hin.
        destruct (Hb d Hin) as (B1 & B2). split.
        -- exact (dle_trans _ _ _ Hm1 B1).
        -- exact (dle_trans _ _ _ B2 Hx1).
      * constructor; [split; assumption | constructor].
Qed.

Lemma sum_units_bounds lo hi ds :
  Forall (fun d => lo <= units d <= hi) ds ->
  Z.of_nat (List.length ds) * lo <= sum_units ds <= Z.of_nat (List.length ds) * hi.
Proof.
  induction 1 as [|d ds Hd _ IH]; simpl sum_units; simpl List.length.
  - lia.
  - rewrite Nat2Z.inj_succ. lia.
Qed.

(** The statistics of at least one run, none of them NaN. *)
Lemma fold_zero_bounds o l :
  Forall (fun d => is_nan d = false) (durations (o :: l)) ->
  let st := fold_stats zero_stats (o :: l) in
  Forall (fun d => dle (min_s st) d = true /\ dle d (max_s st) = true)
         (durations (o :: l)) /\
  In (min_s st) (durations (o :: l)) /\ In (max_s st) (durations (o :: l)).
Proof.
  intros Hn st. inversion Hn as [|d ds Hd Hds]; subst.
  split.
  - apply (min_max_bounds l (update_stats zero_stats (fst o) (snd o)) [snd o]);
      simpl; auto; try lia.
    constructor; [|constructor].
    split; apply dle_refl; exact Hd.
  - apply (min_max_In l (update_stats zero_stats (fst o) (snd o)) [snd o]);
      simpl; auto; lia.
Qed.

(** C2 fails on doubles.  Three runs of 25.0005 ms each under
    [-d 0.0625]: every duration is the same double, just above 0.0250005;
    their double sum, divided by 3, is one unit in the last place lower,
    just below 0.0250005.  The average is below the minimum, and it shows
    in the report: Min 0.025001, Avg 0.025000, Max 0.025001. *)
Lemma average_below_minimum :
  let r := main 4 steady_env [OptD sixteenth] cmd_true init_world in
  exit_status r = Some 0 /\
  runs (stats_of (world_of r)) = 3 /\
  printed (log (world_of r)) =
    [EvStdout (TotalLine (dsub (seconds (tick 0 84001500)) (seconds steady_start)));
     EvStdout (MaxLine (S754_finite false 7205903518980870 (-58)) 0);
     EvStdout (AvgLine (S754_finite false 7205903518980869 (-58)) 3);
     EvStdout (MinLine (S754_finite false 7205903518980870 (-58)) 0)] /\
  avg_of (stats_of (world_of r)) = ddiv (sum_s (stats_of (world_of r))) (of_int 3) /\
  dle (min_s (stats_of (world_of r))) (avg_of (stats_of (world_of r))) = false /\
  fmt_6f (min_s (stats_of (world_of r))) = Some 25001 /\
  fmt_6f (avg_of (stats_of (world_of r))) = Some 25000 /\
  fmt_6f (max_s (stats_of (world_of r))) = Some 25001 /\
  ~ avg_between (stats_of (world_of r)).
Proof.
  intros r. repeat split; try (vm_compute; reflexivity).
  intros (H & _). vm_compute in H. discriminate.
Qed.

(** C2, amended: for a program that completes with [n] runs,
    [0 < n < 2^53], all durations finite doubles that are not negative, and
    a finite reported average (the sum did not overflow).  The reported
    minimum and maximum bound every measured duration, are themselves
    measured durations, and so [min <= max]; the exact mean lies between
    them, [n * min <= d1 + ... + dn <= n * max].  [sum_s] is the durations
    added up in doubles from left to right, within a factor
    [(1 + 2^-52) ^ n] of their exact sum either way.  The reported
    average is the double quotient of [sum_s] by [(double) n], and
    [n * avg] is [sum_s] within a factor [1 + 2^-52] and [n] units of
    [2^-1074] either way.  And the reported average is between the
    reported extremes within that tolerance:
    [min <= (avg + 2^-1074) * (1 + 2^-52) ^ (n + 1)] and
    [avg <= (max + 2^-1074) * (1 + 2^-52) ^ (n + 1)]. *)
Theorem mean_between_extremes fuel E opts cmd code w :
  main fuel E opts cmd init_world = Ret code w ->
  0 < runs (stats_of w) < 2 ^ 53 ->
  Forall finite_double (durations (measured (log w))) ->
  Forall (fun d => dle dzero d = true) (durations (measured (log w))) ->
  is_finite (avg_of (stats_of w)) = true ->
  runs (stats_of w) = Z.of_nat (List.length (durations (measured (log w)))) /\
  Forall (fun d => dle (min_s (stats_of w)) d = true /\
                   dle d (max_s (stats_of w)) = true)
         (durations (measured (log w))) /\
  In (min_s (stats_of w)) (durations (measured (log w))) /\
  In (max_s (stats_of w)) (durations (measured (log w))) /\
  dle (min_s (stats_of w)) (max_s (stats_of w)) = true /\
  runs (stats_of w) * units (min_s (stats_of w))
    <= sum_units (durations (measured (log w)))
    <= runs (stats_of w) * units (max_s (stats_of w)) /\
  sum_s (stats_of w) = fold_left dadd (durations (measured (log w))) dzero /\
  is_finite (sum_s (stats_of w)) = true /\
  (le_upto (runs (stats_of w)) (units (sum_s (stats_of w)))
           (sum_units (durations (measured (log w)))) 0 /\
   le_upto (runs (stats_of w)) (sum_units (durations (measured (log w))))
           (units (sum_s (stats_of w))) 0) /\
  avg_of (stats_of w) = ddiv (sum_s (stats_of w)) (of_int (runs (stats_of w))) /\
  (le_upto 1 (runs (stats_of w) * units (avg_of (stats_of w)))
           (units (sum_s (stats_of w))) (runs (stats_of w)) /\
   le_upto 1 (units (sum_s (stats_of w)))
           (runs (stats_of w) * units (avg_of (stats_of w)))
           (runs (stats_of w))) /\
  le_upto (runs (stats_of w) + 1)
          (units (min_s (stats_of w))) (units (avg_of (stats_of w))) 1 /\
  le_upto (runs (stats_of w) + 1)
          (units (avg_of (stats_of w))) (units (max_s (stats_of w))) 1 /\
  exists c total_elapsed,
    printed (log w) =
      [EvStdout (TotalLine total_elapsed);
       EvStdout (MaxLine (max_s (stats_of w)) (fails (stats_of w)));
       EvStdout (AvgLine (avg_of (stats_of w)) (runs (stats_of w)));
       EvStdout (MinLine (min_s (stats_of w)) (warmups c))].
Proof.
  intros H Hr Hfin Hpos Havg.
  apply main_log in H.
  destruct H as (c & wu & evs & total & _ & L & _ & Pw & _ & _ & _ & Pe & _).
  assert (Hp : printed (log w) = report_lines c (stats_of w) total).
  { rewrite L, !printed_app, Pe, Pw, app_nil_r. reflexivity. }
  clear L. unfold stats_of in *.
  remember (measured (log w)) as hist eqn:Hh. clear Hh.
  assert (Hnan : Forall (fun d => is_nan d = false) (durations hist)).
  { eapply Forall_impl; [|exact Hfin]. apply finite_not_nan. }
  destruct hist as [|o l]; [simpl in Hr; lia|].
  destruct (fold_zero_bounds o l Hnan) as (Hb & Hmin & Hmax).
  set (ds := durations (o :: l)) in *.
  set (st := fold_stats zero_stats (o :: l)) in *.
  assert (Hruns : runs st = Z.of_nat (List.length ds)).
  { unfold st, ds. rewrite runs_fold. unfold durations.
    rewrite length_map. simpl. lia. }
  assert (Hsum : sum_s st = fold_left dadd ds dzero) by apply sum_fold.
  assert (Hq : avg_of st = ddiv (sum_s st) (of_int (runs st))).
  { unfold avg_of. destruct (Z.gtb_spec (runs st) 0); [reflexivity | lia]. }
  assert (Hexact : runs st * units (min_s st) <= sum_units ds
                   <= runs st * units (max_s st)).
  { rewrite Hruns. apply sum_units_bounds.
    rewrite Forall_forall in *. intros d Hd.
    destruct (Hb d Hd) as (B1 & B2).
    destruct (Hfin d Hd) as (Vd & Fd).
    destruct (Hfin _ Hmin) as (Vmin & Fmin).
    destruct (Hfin _ Hmax) as (Vmax & Fmax).
    split; apply dle_units; assumption. }
  assert (Hnb : Forall nonneg_bounded ds).
  { rewrite Forall_forall in *. intros d Hd.
    apply duration_nonneg_bounded; auto. }
  assert (Hmin0 : 0 <= units (min_s st)).
  { apply nonneg_bounded_units. rewrite Forall_forall in Hnb. auto. }
  rewrite Hq, Hsum, Hruns in Havg. rewrite Hruns in Hr, Hexact.
  destruct (mean_enclosure ds _ _ Hnb Hr Hexact Hmin0 Havg)
    as (Fs & Es & Eq & Elo & Ehi).
  rewrite <- Hsum in Fs.
  rewrite <- Hruns, <- Hsum in Es.
  rewrite <- Hruns, <- Hsum, <- Hq in Eq, Elo, Ehi.
  rewrite <- Hruns in Hr, Hexact.
  split; [exact Hruns|].
  split; [exact Hb|].
  split; [exact Hmin|].
  split; [exact Hmax|].
  split.
  { rewrite Forall_forall in Hb. apply (Hb _ Hmax). }
  split; [exact Hexact|].
  split; [exact Hsum|].
  split; [exact Fs|].
  split; [exact Es|].
  split; [exact Hq|].
  split; [exact Eq|].
  split; [exact Elo|].
  split; [exact Ehi|].
  exists c, total. rewrite Hp. unfold report_lines, shown.
  destruct (Z.eqb_spec (runs st) 0); [lia | reflexivity].
Qed.

Lemma mean_between_extremes_witness :
  let st := stats_of (world_of (main 4 steady_env [OptD sixteenth] cmd_true
                                  init_world)) in
  le_upto 4 (units (min_s st)) (units (avg_of st)) 1 /\
  le_upto 4 (units (avg_of st)) (units (max_s st)) 1.
Proof.
  intros st.
  destruct (mean_between_extremes 4 steady_env [OptD sixteenth] cmd_true 0
              (world_of (main 4 steady_env [OptD sixteenth] cmd_true
                           init_world)))
    as (_ & _ & _ & _ & _ & _ & _ & _ & _ & _ & _ & Hlo & Hhi & _).
  - vm_compute. reflexivity.
  - vm_compute. split; reflexivity.
  - vm_compute. repeat (constructor; [split; reflexivity|]). constructor.
  - vm_compute. repeat (constructor; [reflexivity|]). constructor.
  - vm_compute. reflexivity.
  - split; [exact Hlo | exact Hhi].
Defined.

(** ** C3: the budget is looked at between runs only *)

(** C3: one pass through the timed loop, when the clock answers [ts].
    With [elapsed >= duration] the loop ends there: the statistics are
    returned as they are and [fork] is not called.  Otherwise [run_once] is
    called, and whatever it returns, however long it took and wherever the
    clock stands afterwards, its result is folded into the statistics before
    the budget is looked at again.  So a loop that ends has called [fork]
    exactly as often as it counted a run. *)
Theorem budget_checked_between_runs fuel E cmd total_start dur st w ts :
  clock E (clk w) = Some ts ->
  runs st < LONG_MAX ->
  (dge (dsub (seconds ts) total_start) dur = true ->
   measure (S fuel) E cmd total_start dur st w = Ret st (ticked w)) /\
  (dge (dsub (seconds ts) total_start) dur = false ->
   forall rc out w1,
     run_once E cmd (ticked w) = Ret (rc, out) w1 ->
     measure (S fuel) E cmd total_start dur st w
       = measure fuel E cmd total_start dur
           (update_stats st rc (secs_after out))
           (emit_ev (EvRun rc (secs_after out)) w1) /\
     forks w1 = S (forks w) /\
     runs (update_stats st rc (secs_after out)) = runs st + 1) /\
  (forall st' w',
     measure (S fuel) E cmd total_start dur st w = Ret st' w' ->
     Z.of_nat (forks w') - Z.of_nat (forks w) = runs st' - runs st).
Proof.
  intros Hc Hr. split; [|split].
  - intros Hge. simpl. unfold bind. rewrite (now_monotonic_ok _ _ _ Hc), Hge.
    reflexivity.
  - intros Hlt rc out w1 Hrun. split; [|split].
    + simpl. unfold bind at 1. rewrite (now_monotonic_ok _ _ _ Hc), Hlt.
      unfold bind at 1. rewrite Hrun. simpl.
      destruct (Z.leb_spec LONG_MAX (runs st)); [lia|]. reflexivity.
    + apply run_once_Ret in Hrun.
      destruct Hrun as (evs & (_ & F & _) & Fk & _). simpl in F. lia.
    + simpl. lia.
  - intros st' w' H. apply measure_Ret in H.
    destruct H as (evs & (_ & F & _) & -> & Fk & _).
    rewrite runs_fold, F, Fk. lia.
Qed.

Lemma budget_checked_between_runs_witness :
  let r := run_once slow_env cmd_true (ticked (ticked init_world)) in
  measure 2 slow_env cmd_true (seconds (tick 0 0)) sixteenth zero_stats
    (ticked init_world)
  = measure 1 slow_env cmd_true (seconds (tick 0 0)) sixteenth
      (update_stats zero_stats 0 (secs_after (snd (value_or (0, None) r))))
      (emit_ev (EvRun 0 (secs_after (snd (value_or (0, None) r)))) (world_of r)).
Proof.
  intros r.
  refine (proj1 (proj1 (proj2 (budget_checked_between_runs 1 slow_env cmd_true
            (seconds (tick 0 0)) sixteenth zero_stats (ticked init_world)
            (tick 0 1000) _ _)) _ 0 (snd (value_or (0, None) r)) (world_of r) _)).
  - reflexivity.
  - vm_compute. reflexivity.
  - vm_compute. reflexivity.
  - vm_compute. reflexivity.
Defined.

(** ** C4: the warmup *)

(** C4: with [w = warmups] accepted by the option loop, a warmup that
    returns has made exactly [w] calls of [fork] (one per execution of
    [run_once]), has folded no run and printed nothing; only then does
    [main] read the clock for the start of the window; and the timed phase
    with its report is the one a program started afresh would produce
    against what is left of the operating system: it depends on the warmup
    runs through nothing but the number of oracle answers they used up. *)
Theorem warmup_is_discarded fuel E opts cmd c w1 :
  parse_options opts default_config init_world = Ret c init_world ->
  cmd <> [] ->
  warmup (Z.to_nat (warmups c)) E cmd init_world = Ret tt w1 ->
  0 <= warmups c /\
  Z.of_nat (forks w1) = warmups c /\
  Z.of_nat (fork_calls (log w1)) = warmups c /\
  measured (log w1) = [] /\
  printed (log w1) = [] /\
  stats_of w1 = zero_stats /\
  main fuel E opts cmd init_world = timed_phase fuel E cmd c w1 /\
  timed_phase fuel E cmd c w1
    = lift_result w1 (timed_phase fuel (shift E w1) cmd c init_world).
Proof.
  intros Hp Hcmd Hw.
  assert (H0 : 0 <= warmups c).
  { destruct (parse_options_cases opts default_config init_world)
      as [(_ & c1 & Hc & Hpos)|(_ & m & Hm)]; [|congruence].
    rewrite Hp in Hc. inversion Hc; subst c1. apply Hpos. simpl. lia. }
  pose proof (warmup_Ret _ _ _ _ _ _ Hw) as (evs & (L & F & _) & Fk & Mw & Pw).
  simpl in L, F. rewrite app_nil_r in L.
  split; [exact H0|].
  split; [rewrite F, Fk; lia|].
  split; [rewrite L, Fk; lia|].
  split; [now rewrite L|].
  split; [now rewrite L|].
  split; [unfold stats_of; rewrite L, Mw; reflexivity|].
  split.
  - unfold main, bind at 1. rewrite Hp.
    destruct cmd as [|a cmd]; [congruence|].
    unfold bind. rewrite Hw. reflexivity.
  - rewrite <- (behind_init w1) at 1. apply continues_timed_phase.
Qed.

Lemma warmup_is_discarded_witness :
  let w1 := world_of (warmup 1 rough_env cmd_true init_world) in
  main 10 rough_env [OptW 1; OptD (of_int 3)] cmd_true init_world
  = lift_result w1
      (timed_phase 10 (shift rough_env w1) cmd_true
         {| warmups := 1; duration := of_int 3 |} init_world).
Proof.
  intros w1.
  destruct (warmup_is_discarded 10 rough_env [OptW 1; OptD (of_int 3)] cmd_true
              {| warmups := 1; duration := of_int 3 |} w1)
    as (_ & _ & _ & _ & _ & _ & Hmain & Hrest).
  - vm_compute. reflexivity.
  - discriminate.
  - vm_compute. reflexivity.
  - rewrite Hmain. exact Hrest.
Defined.

(** ** C5: the exit status *)

(** C5: the status the program ends with is 0 or 1.  It is 0 only when
    the program got through its options, had a command, completed the
    timed phase and returned from [main] with every folded run's return
    code 0.  And a program that returns from [main] does so with
    [EXIT_SUCCESS] exactly when every run folded in the timed phase
    returned 0, and with [EXIT_FAILURE] exactly when at least one did not,
    a fork or wait error ([rc = -1]) included: the status is decided by
    [fails > 0] alone. *)
Theorem exit_status_reflects_failures fuel E opts cmd code :
  exit_status (main fuel E opts cmd init_world) = Some code ->
  (code = EXIT_SUCCESS \/ code = EXIT_FAILURE) /\
  (code = 0 ->
   exists w, main fuel E opts cmd init_world = Ret 0 w /\
             Forall (fun o => fst o = 0) (measured (log w))) /\
  (forall w,
     main fuel E opts cmd init_world = Ret code w ->
     (code = 0 <-> Forall (fun o => fst o = 0) (measured (log w))) /\
     (code <> 0 <-> Exists (fun o => fst o <> 0) (measured (log w))) /\
     (code <> 0 <-> 0 < fails (stats_of w)) /\
     (forall secs, In (-1, secs) (measured (log w)) -> code <> 0) /\
     fails (stats_of w)
       = Z.of_nat (List.length (filter failed (measured (log w))))).
Proof.
  intros Hs.
  assert (Hret : forall w,
     main fuel E opts cmd init_world = Ret code w ->
     (code = 0 \/ code = 1) /\
     (code = 0 <-> Forall (fun o => fst o = 0) (measured (log w))) /\
     (code <> 0 <-> 0 < fails (stats_of w)) /\
     fails (stats_of w)
       = Z.of_nat (List.length (filter failed (measured (log w))))).
  { intros w H. apply main_log in H.
    destruct H as (c & wu & evs & total & _ & _ & _ & _ & _ & _ & _ & _ & Hcode).
    assert (Hf : fails (stats_of w)
                 = Z.of_nat (List.length (filter failed (measured (log w))))).
    { unfold stats_of. rewrite fails_fold. simpl. lia. }
    split; [|split; [|split]].
    - rewrite Hcode. destruct (fails (stats_of w) >? 0); auto.
    - rewrite <- no_failed_Forall. rewrite Hcode, Hf.
      destruct (filter failed (measured (log w))) as [|o l]; simpl.
      + split; reflexivity.
      + split; [|discriminate].
        destruct (Z.gtb_spec (Z.pos (Pos.of_succ_nat (List.length l))) 0);
          [discriminate | lia].
    - rewrite Hcode. destruct (Z.gtb_spec (fails (stats_of w)) 0).
      + split; [lia | discriminate].
      + split; [intros X; now elim X | lia].
    - exact Hf. }
  split; [|split].
  - destruct (main fuel E opts cmd init_world) as [c w|c w|] eqn:Hm;
      simpl in Hs; inversion Hs; subst c.
    + destruct (Hret w eq_refl) as (H & _). exact H.
    + right. apply (main_Exit _ _ _ _ _ _ Hm).
  - intros H0.
    destruct (main fuel E opts cmd init_world) as [c w|c w|] eqn:Hm;
      simpl in Hs; inversion Hs; subst c.
    + exists w. subst code. split; [reflexivity|].
      destruct (Hret w eq_refl) as (_ & H & _). apply H. reflexivity.
    + apply main_Exit in Hm. subst code. discriminate.
  - intros w Hm. destruct (Hret w Hm) as (_ & H0 & Hn & Hf).
    repeat split; try tauto.
    + intros Hc. apply neg_Forall_Exists_neg.
      * intros o. destruct (Z.eq_dec (fst o) 0); auto.
      * tauto.
    + intros He Hc. apply H0 in Hc. apply Exists_exists in He.
      destruct He as (o & Ho & Hne). rewrite Forall_forall in Hc. auto.
    + intros secs Hin Hc. apply H0 in Hc. rewrite Forall_forall in Hc.
      apply Hc in Hin. discriminate.
Qed.

Lemma exit_status_reflects_failures_witness :
  exists w,
    main 4 steady_env [OptD sixteenth] cmd_true init_world = Ret 0 w /\
    Forall (fun o => fst o = 0) (measured (log w)).
Proof.
  refine (proj1 (proj2 (exit_status_reflects_failures 4 steady_env
                   [OptD sixteenth] cmd_true 0 _)) _).
  - vm_compute. reflexivity.
  - reflexivity.
Defined.

(** ** C6: what a run contributes *)

(** A run that returned 0 or 1 stored the difference of its two clock
    readings, and that is what the loop folds. *)
Lemma completed_run_duration E cmd w rc out w' :
  run_once E cmd w = Ret (rc, out) w' ->
  rc <> -1 ->
  exists ts0 ts1,
    clock E (clk w) = Some ts0 /\ clock E (S (clk w)) = Some ts1 /\
    secs_after out = dsub (seconds ts1) (seconds ts0).
Proof.
  intros H Hrc. apply run_once_codes in H.
  destruct H as [(Hm & _)|(_ & ts0 & ts1 & H0 & H1 & ->)]; [contradiction|].
  exists ts0, ts1. auto.
Qed.

(** After a fork or wait error [secs] still holds the 0.0 it was
    declared with. *)
Lemma system_error_duration E cmd w out w' :
  run_once E cmd w = Ret (-1, out) w' -> secs_after out = dzero.
Proof.
  intros H. apply run_once_codes in H.
  destruct H as [(_ & ->)|([H|H] & _)]; [reflexivity | discriminate..].
Qed.

(** C6 fails for system errors.  Under [-d 6] the second run's [fork]
    fails and the third run's [waitpid] fails 3 s after the run began; both
    are counted as runs and as failures, but with the duration 0.0 instead
    of the time they took, so the reported minimum is 0 although every run
    took time. *)
Lemma system_error_run_folds_zero :
  let r := main 10 rough_env [OptD (of_int 6)] cmd_true init_world in
  exit_status r = Some 1 /\
  measured (log (world_of r)) =
    [(1, of_int 2); (-1, dzero); (-1, dzero);
     (1, dsub (seconds (tick 16 8000)) (seconds (tick 15 8000)))] /\
  runs (stats_of (world_of r)) = 4 /\
  fails (stats_of (world_of r)) = 4 /\
  min_s (stats_of (world_of r)) = dzero /\
  In (EvStdout (MinLine dzero 0)) (log (world_of r)) /\
  dlt dzero (dsub (seconds (tick 15 7000)) (seconds (tick 12 6000))) = true.
Proof.
  intros r. repeat split; try (vm_compute; reflexivity).
  vm_compute. tauto.
Qed.

(** C6, amended: one pass through the timed loop that starts a run, the
    run returning [rc] and leaving [secs].  The run is folded, whatever
    [rc]: [runs] grows by one, [fails] by one exactly when [rc] is not 0,
    [secs] is added to [sum_s], and [min_s] and [max_s] become [secs] on the
    first run and afterwards whichever of the old value and [secs] is the
    smaller, respectively the larger.  For [rc] 0 or 1 (the child was
    reaped) [secs] is the difference of the run's two clock readings,
    which is not negative when the clock did not go back; for [rc = -1]
    (fork or wait error) nothing was stored and [secs] is still 0.0. *)
Theorem counted_run_contribution fuel E cmd total_start dur st w ts rc out w1 :
  clock E (clk w) = Some ts ->
  dge (dsub (seconds ts) total_start) dur = false ->
  runs st < LONG_MAX ->
  run_once E cmd (ticked w) = Ret (rc, out) w1 ->
  measure (S fuel) E cmd total_start dur st w
    = measure fuel E cmd total_start dur
        (update_stats st rc (secs_after out))
        (emit_ev (EvRun rc (secs_after out)) w1) /\
  runs (update_stats st rc (secs_after out)) = runs st + 1 /\
  fails (update_stats st rc (secs_after out))
    = fails st + (if rc =? 0 then 0 else 1) /\
  sum_s (update_stats st rc (secs_after out)) = dadd (sum_s st) (secs_after out) /\
  (min_s (update_stats st rc (secs_after out)) = secs_after out \/
   runs st <> 0 /\ min_s (update_stats st rc (secs_after out)) = min_s st) /\
  dlt (secs_after out) (min_s (update_stats st rc (secs_after out))) = false /\
  (max_s (update_stats st rc (secs_after out)) = secs_after out \/
   runs st <> 0 /\ max_s (update_stats st rc (secs_after out)) = max_s st) /\
  dgt (secs_after out) (max_s (update_stats st rc (secs_after out))) = false /\
  (rc = 0 \/ rc = 1 \/ rc = -1) /\
  (rc <> -1 ->
   exists ts0 ts1,
     clock E (S (clk w)) = Some ts0 /\ clock E (S (S (clk w))) = Some ts1 /\
     secs_after out = dsub (seconds ts1) (seconds ts0) /\
     (finite_double (seconds ts0) -> finite_double (seconds ts1) ->
      dle (seconds ts0) (seconds ts1) = true ->
      dle dzero (secs_after out) = true)) /\
  (rc = -1 -> secs_after out = dzero).
Proof.
  intros Hc Hlt Hr Hrun.
  assert (Hirr : forall x, dlt x x = false).
  { intros x. unfold dlt, SFltb, SFcompare.
    destruct x as [s|s| |s m e]; try destruct s; try reflexivity;
      rewrite Z.compare_refl, Pos.compare_cont_refl; reflexivity. }
  split; [|split; [|split; [|split; [|split; [|split; [|split; [|split;
    [|split; [|split]]]]]]]]].
  - simpl. unfold bind at 1. rewrite (now_monotonic_ok _ _ _ Hc), Hlt.
    unfold bind at 1. rewrite Hrun. simpl.
    destruct (Z.leb_spec LONG_MAX (runs st)); [lia|]. reflexivity.
  - reflexivity.
  - simpl. destruct (rc =? 0); simpl; lia.
  - reflexivity.
  - simpl. destruct (Z.eqb_spec (runs st) 0); [auto|].
    destruct (dlt (secs_after out) (min_s st)); auto.
  - simpl. destruct (Z.eqb_spec (runs st) 0); [apply Hirr|].
    destruct (dlt (secs_after out) (min_s st)) eqn:Hd; [apply Hirr | exact Hd].
  - simpl. destruct (Z.eqb_spec (runs st) 0); [auto|].
    destruct (dgt (secs_after out) (max_s st)); auto.
  - simpl. destruct (Z.eqb_spec (runs st) 0); [apply Hirr|].
    destruct (dgt (secs_after out) (max_s st)) eqn:Hd; [apply Hirr | exact Hd].
  - apply run_once_codes in Hrun. destruct Hrun as [(-> & _)|([->| ->] & _)]; auto.
  - intros Hne. destruct (completed_run_duration _ _ _ _ _ _ Hrun Hne)
      as (ts0 & ts1 & H0 & H1 & Hs).
    exists ts0, ts1. simpl in H0, H1. repeat split; auto.
    intros F0 F1 Hle. rewrite Hs. apply dsub_nonneg; assumption.
  - intros ->. apply (system_error_duration _ _ _ _ _ Hrun).
Qed.

Lemma counted_run_contribution_witness :
  exists ts0 ts1,
    clock rough_env 2 = Some ts0 /\ clock rough_env 3 = Some ts1 /\
    secs_after (Some (of_int 2)) = dsub (seconds ts1) (seconds ts0) /\
    (finite_double (seconds ts0) -> finite_double (seconds ts1) ->
     dle (seconds ts0) (seconds ts1) = true ->
     dle dzero (secs_after (Some (of_int 2))) = true).
Proof.
  refine (proj1 (proj2 (proj2 (proj2 (proj2 (proj2 (proj2 (proj2 (proj2 (proj2
    (counted_run_contribution 4 rough_env cmd_true (seconds (tick 10 0))
       (of_int 6) zero_stats (ticked init_world) (tick 10 1000)
       1 (Some (of_int 2))
       (world_of (run_once rough_env cmd_true (ticked (ticked init_world))))
       _ _ _ _)))))))))) _).
  - reflexivity.
  - vm_compute. reflexivity.
  - vm_compute. reflexivity.
  - vm_compute. reflexivity.
  - discriminate.
Defined.

(** ** C7: the counters *)

(** C7: the counters keep [0 <= fails <= runs] through the measurement
    loop.  From statistics [st] that satisfy it, a timed loop that ends in
    [st'] has folded some runs [hist] one by one; [st'] satisfies it again,
    [runs] grew by one per run and [fails] by one per failed run; and one
    more fold step increments [runs], increments [fails] at most once, only
    when [rc] is not 0, and keeps the invariant. *)
Theorem counts_invariant fuel E cmd total_start dur st w st' w' :
  0 <= fails st <= runs st ->
  measure fuel E cmd total_start dur st w = Ret st' w' ->
  exists hist,
    st' = fold_stats st hist /\
    runs st' = runs st + Z.of_nat (List.length hist) /\
    fails st' = fails st + Z.of_nat (List.length (filter failed hist)) /\
    0 <= fails st' <= runs st' /\
    forall rc secs,
      runs (update_stats st' rc secs) = runs st' + 1 /\
      fails (update_stats st' rc secs) = fails st' + (if rc =? 0 then 0 else 1) /\
      0 <= fails (update_stats st' rc secs) <= runs (update_stats st' rc secs).
Proof.
  intros Hinv H. apply measure_Ret in H.
  destruct H as (evs & _ & -> & _).
  exists (measured evs).
  pose proof (filter_length_le failed (measured evs)) as Hle.
  rewrite runs_fold, fails_fold.
  repeat split; try lia.
  - simpl. rewrite runs_fold. lia.
  - simpl. rewrite fails_fold. destruct (rc =? 0); simpl; lia.
  - simpl. rewrite fails_fold. destruct (rc =? 0); simpl; lia.
  - simpl. rewrite fails_fold, runs_fold. destruct (rc =? 0); simpl; lia.
Qed.

Lemma counts_invariant_witness :
  let r := measure 4 steady_env cmd_true (seconds steady_start) sixteenth
             zero_stats (ticked init_world) in
  0 <= fails (value_or zero_stats r) <= runs (value_or zero_stats r).
Proof.
  intros r.
  destruct (counts_invariant 4 steady_env cmd_true (seconds steady_start)
              sixteenth zero_stats (ticked init_world)
              (value_or zero_stats r) (world_of r))
    as (hist & _ & _ & _ & H & _).
  - simpl. lia.
  - vm_compute. reflexivity.
  - exact H.
Defined.

(** ** C8: min and max start from the first run *)

Lemma run_once_recorded E cmd w r w' :
  run_once E cmd w = Ret r w' -> recorded E (fst r) (secs_after (snd r)).
Proof.
  destruct r as [rc out]. intros H. apply run_once_codes in H.
  destruct H as [(-> & ->)|(Hrc & ts0 & ts1 & H0 & H1 & ->)].
  - left. split; reflexivity.
  - right. split; [exact Hrc|]. exists (clk w), ts0, ts1. auto.
Qed.

(** C8 fails when the first run ends in a system error.  With the default
    options the first [fork] fails: the run is counted with the 0.0 that
    [secs] was declared with, so after the first timed run
    [min = max = 0.0], a default and not a time.  Two runs of 2 s follow;
    the minimum stays 0.0 and the report shows Min 0, although every run,
    the first included, took 2 s or more. *)
Lemma first_fork_failure_biases_min :
  let r := main 10 fork_fails_first_env [] cmd_true init_world in
  exit_status r = Some 1 /\
  measured (log (world_of r)) =
    [(-1, dzero);
     (0, dsub (seconds (tick 14 3000)) (seconds (tick 12 3000)));
     (0, dsub (seconds (tick 16 5000)) (seconds (tick 14 5000)))] /\
  min_s (update_stats zero_stats (-1) dzero) = dzero /\
  max_s (update_stats zero_stats (-1) dzero) = dzero /\
  runs (stats_of (world_of r)) = 3 /\
  min_s (stats_of (world_of r)) = dzero /\
  max_s (stats_of (world_of r)) =
    dsub (seconds (tick 16 5000)) (seconds (tick 14 5000)) /\
  printed (log (world_of r)) =
    [EvStdout (TotalLine (dsub (seconds (tick 16 7000)) (seconds (tick 10 0))));
     EvStdout (MaxLine (dsub (seconds (tick 16 5000)) (seconds (tick 14 5000))) 1);
     EvStdout (AvgLine (avg_of (stats_of (world_of r))) 3);
     EvStdout (MinLine dzero 0)] /\
  dle (of_int 2) (dsub (seconds (tick 12 2000)) (seconds (tick 10 2000))) = true /\
  dle (of_int 2) (dsub (seconds (tick 14 3000)) (seconds (tick 12 3000))) = true /\
  dle (of_int 2) (dsub (seconds (tick 16 5000)) (seconds (tick 14 5000))) = true /\
  ~ measured_time fork_fails_first_env (min_s (stats_of (world_of r))).
Proof.
  intros r.
  do 11 (split; [vm_compute; reflexivity|]).
  intros (k & ts0 & ts1 & H0 & H1 & Hd).
  replace (min_s (stats_of (world_of r))) with dzero in Hd
    by (vm_compute; reflexivity).
  do 10 (destruct k as [|k]; [vm_compute in H0, H1;
    inversion H0; inversion H1; subst; vm_compute in Hd; discriminate|]).
  destruct k; discriminate.
Qed.

(** C8, amended: [min_s] and [max_s] are taken from the first counted
    run's recorded duration, not from the 0.0 they are declared with, but
    that recorded duration is itself the 0.0 [secs] is declared with when
    the run ended in a fork or wait error.  A program that completes with
    at least one run has folded a first run [(rc, secs)], after which
    [min_s = max_s = secs]; at the end [min_s] and [max_s] are each the
    recorded duration of a counted run; every recorded duration is the
    measured time of its run when the run returned 0 or 1 and 0.0 when it
    returned -1.  So if no run ended in a system error the reported
    extremes are measured times; if one did, the reported minimum is at
    most 0.0 whatever the runs took. *)
Theorem min_max_from_first_run fuel E opts cmd code w :
  main fuel E opts cmd init_world = Ret code w ->
  0 < runs (stats_of w) ->
  (exists rc secs rest,
     measured (log w) = (rc, secs) :: rest /\
     min_s (update_stats zero_stats rc secs) = secs /\
     max_s (update_stats zero_stats rc secs) = secs /\
     stats_of w = fold_stats (update_stats zero_stats rc secs) rest) /\
  In (min_s (stats_of w)) (durations (measured (log w))) /\
  In (max_s (stats_of w)) (durations (measured (log w))) /\
  Forall (fun o => recorded E (fst o) (snd o)) (measured (log w)) /\
  (Forall (fun o => fst o <> -1) (measured (log w)) ->
   measured_time E (min_s (stats_of w)) /\
   measured_time E (max_s (stats_of w))) /\
  (Exists (fun o => fst o = -1) (measured (log w)) ->
   Forall (fun d => is_nan d = false) (durations (measured (log w))) ->
   dle (min_s (stats_of w)) dzero = true) /\
  exists c total_elapsed,
    printed (log w) =
      [EvStdout (TotalLine total_elapsed);
       EvStdout (MaxLine (max_s (stats_of w)) (fails (stats_of w)));
       EvStdout (AvgLine (avg_of (stats_of w)) (runs (stats_of w)));
       EvStdout (MinLine (min_s (stats_of w)) (warmups c))].
Proof.
  intros H Hr.
  pose proof (main_every_run E cmd (recorded E) (run_once_recorded E cmd)
                _ _ _ _ H) as Hrec.
  apply main_log in H.
  destruct H as (c & wu & evs & total & _ & L & _ & Pw & _ & _ & _ & Pe & _).
  assert (Hp : printed (log w) = report_lines c (stats_of w) total).
  { rewrite L, !printed_app, Pe, Pw, app_nil_r. reflexivity. }
  clear L. unfold stats_of in *.
  remember (measured (log w)) as hist eqn:Hh. clear Hh.
  destruct hist as [|[rc secs] rest]; [simpl in Hr; lia|].
  set (st := fold_stats zero_stats ((rc, secs) :: rest)) in *.
  assert (Hin : In (min_s st) (durations ((rc, secs) :: rest)) /\
                In (max_s st) (durations ((rc, secs) :: rest))).
  { unfold st. rewrite fold_stats_cons.
    apply (min_max_In rest (update_stats zero_stats rc secs) [secs]);
      simpl; auto; lia. }
  destruct Hin as (Hmin & Hmax).
  assert (Hmt : forall d,
            In d (durations ((rc, secs) :: rest)) ->
            Forall (fun o : Z * double => fst o <> -1) ((rc, secs) :: rest) ->
            measured_time E d).
  { intros d Hd Hok. unfold durations in Hd. apply in_map_iff in Hd.
    destruct Hd as (o & <- & Ho).
    rewrite Forall_forall in Hrec, Hok.
    destruct (Hrec o Ho) as [(Hm1 & _)|(_ & Ht)]; [|exact Ht].
    exfalso. exact (Hok o Ho Hm1). }
  split.
  { exists rc, secs, rest. repeat split. }
  split; [exact Hmin|].
  split; [exact Hmax|].
  split; [exact Hrec|].
  split.
  { intros Hok. split; apply Hmt; assumption. }
  split.
  { intros Hex Hnan. apply Exists_exists in Hex.
    destruct Hex as (o & Ho & Hm1).
    destruct (fold_zero_bounds (rc, secs) rest Hnan) as (Hb & _).
    fold st in Hb. rewrite Forall_forall in Hb, Hrec.
    destruct (Hrec o Ho) as [(_ & Hz)|([H0|H1] & _)]; [|lia..].
    rewrite <- Hz. apply Hb. unfold durations. apply in_map. exact Ho. }
  exists c, total. rewrite Hp. unfold report_lines, shown.
  destruct (Z.eqb_spec (runs st) 0); [lia | reflexivity].
Qed.

Lemma min_max_from_first_run_witness :
  let w := world_of (main 10 fork_fails_first_env [] cmd_true init_world) in
  dle (min_s (stats_of w)) dzero = true.
Proof.
  intros w.
  destruct (min_max_from_first_run 10 fork_fails_first_env [] cmd_true 1 w)
    as (_ & _ & _ & _ & _ & Hbias & _).
  - vm_compute. reflexivity.
  - vm_compute. reflexivity.
  - apply Hbias.
    + vm_compute. apply Exists_cons_hd. reflexivity.
    + vm_compute. repeat (constructor; [reflexivity|]). constructor.
Defined.

(** ** C9: configuration errors *)

(** C9: a negative warmup count, a duration [<= 0] or a missing command
    end the program with [EXIT_FAILURE], which is not 0, after one message
    on stderr and nothing else: the clock was not read, [fork] was not
    called, no child exists, no run was folded and nothing was printed. *)
Theorem invalid_configuration_exits fuel E opts cmd :
  (exists n, In (OptW n) opts /\ n < 0) \/
  (exists d, In (OptD d) opts /\ dle d dzero = true) \/
  cmd = [] ->
  exists m,
    main fuel E opts cmd init_world
      = Exit EXIT_FAILURE (emit_ev (EvStderr m) init_world) /\
    EXIT_FAILURE <> 0 /\
    clk (emit_ev (EvStderr m) init_world) = 0%nat /\
    forks (emit_ev (EvStderr m) init_world) = 0%nat /\
    fork_calls (log (emit_ev (EvStderr m) init_world)) = 0%nat /\
    children (log (emit_ev (EvStderr m) init_world)) = 0%nat /\
    measured (log (emit_ev (EvStderr m) init_world)) = [] /\
    printed (log (emit_ev (EvStderr m) init_world)) = [].
Proof.
  intros H.
  assert (Hm : exists m, main fuel E opts cmd init_world
                         = Exit EXIT_FAILURE (emit_ev (EvStderr m) init_world)).
  { unfold main, bind.
    destruct (parse_options_cases opts default_config init_world)
      as [(Hr & c & Hc & _)|(_ & m & Hm)].
    - rewrite Hc. destruct H as [(n & Hin & Hn)|[(d & Hin & Hd)|Hcmd]].
      + assert (X : existsb rejected opts = true).
        { apply existsb_exists. exists (OptW n). split; [exact Hin|].
          simpl. apply Z.ltb_lt. exact Hn. }
        congruence.
      + assert (X : existsb rejected opts = true).
        { apply existsb_exists. exists (OptD d). split; [exact Hin|].
          exact Hd. }
        congruence.
      + subst cmd. exists MissingCommand. reflexivity.
    - rewrite Hm. exists m. reflexivity. }
  destruct Hm as (m & Hm). exists m.
  repeat split; try reflexivity; try exact Hm. discriminate.
Qed.

Lemma invalid_configuration_exits_witness :
  exists m,
    main 4 steady_env [OptW 3; OptD (of_int 0)] cmd_true init_world
      = Exit EXIT_FAILURE (emit_ev (EvStderr m) init_world) /\
    EXIT_FAILURE <> 0 /\
    clk (emit_ev (EvStderr m) init_world) = 0%nat /\
    forks (emit_ev (EvStderr m) init_world) = 0%nat /\
    fork_calls (log (emit_ev (EvStderr m) init_world)) = 0%nat /\
    children (log (emit_ev (EvStderr m) init_world)) = 0%nat /\
    measured (log (emit_ev (EvStderr m) init_world)) = [] /\
    printed (log (emit_ev (EvStderr m) init_world)) = [].
Proof.
  apply (invalid_configuration_exits 4 steady_env
           [OptW 3; OptD (of_int 0)] cmd_true).
  right. left. exists (of_int 0). split.
  - simpl. right. left. reflexivity.
  - vm_compute. reflexivity.
Defined.

(** ** C10: repeat.c *)

Section RepeatFacts.

Import Repeat.

Lemma append_assoc (s1 s2 s3 : string) :
  ((s1 ++ s2) ++ s3 = s1 ++ (s2 ++ s3))%string.
Proof. induction s1 as [|c s1 IH]; simpl; [reflexivity | now rewrite IH]. Qed.

Lemma print_loop_copies fuel : forall i repeats msg nn,
  (Z.to_nat (repeats - i) <= fuel)%nat ->
  print_loop fuel i repeats msg nn
  = copies (Z.to_nat (repeats - i))
      (put_chars msg ++ (if nn then EmptyString else newline))%string.
Proof.
  induction fuel as [|fuel IH]; intros i repeats msg nn Hf.
  - replace (Z.to_nat (repeats - i)) with 0%nat by lia. reflexivity.
  - simpl. destruct (Z.ltb_spec i repeats) as [Hlt|Hge].
    + rewrite IH by lia.
      replace (Z.to_nat (repeats - i)) with (S (Z.to_nat (repeats - (i + 1))))
        by lia.
      simpl. now rewrite append_assoc.
    + replace (Z.to_nat (repeats - i)) with 0%nat by lia. reflexivity.
Qed.

Lemma put_chars_no_nul msg : has_nul msg = false -> put_chars msg = msg.
Proof.
  induction msg as [|c msg IH]; simpl; [reflexivity|].
  intros H. apply orb_false_iff in H. destruct H as (Hc & Hm).
  rewrite Hc, IH by exact Hm. reflexivity.
Qed.

Lemma parse_options_flags opts : forall f f',
  parse_options opts f = Some f' ->
  repeats f' = fold_left (fun r o => match o with OptR count => count | _ => r end)
                 opts (repeats f) /\
  no_newline f' = (no_newline f || existsb is_n opts).
Proof.
  induction opts as [|o opts IH]; intros f f' H; simpl in H.
  - inversion H; subst. simpl. now rewrite orb_false_r.
  - destruct o as [count| |]; [| |discriminate];
      apply IH in H; simpl in *; destruct H as (-> & ->); split; auto.
    now rewrite orb_true_r.
Qed.

End RepeatFacts.

(** C10: with options the option loop accepts, [r] the count of the last
    [-r] (1 without one) and a message, [repeat] writes [max r 0] copies of
    the message, each followed by a newline unless [-n] was given, writes
    nothing to stderr and exits with 0; for [r <= 0] it writes nothing and
    still exits with 0; without a message it exits with 1 and writes
    nothing to stdout. *)
Theorem repeat_writes_copies opts f :
  Repeat.parse_options opts Repeat.default_flags = Some f ->
  Repeat.repeats f = Repeat.last_count opts /\
  Repeat.no_newline f = existsb Repeat.is_n opts /\
  (forall msg rest,
     Repeat.has_nul msg = false ->
     Repeat.main opts (msg :: rest)
     = (0, {| Repeat.stdout :=
                Repeat.copies (Z.to_nat (Z.max (Repeat.repeats f) 0))
                  (msg ++ (if Repeat.no_newline f then EmptyString
                           else Repeat.newline))%string;
              Repeat.stderr := [] |}) /\
     (Repeat.repeats f <= 0 ->
      Repeat.main opts (msg :: rest)
      = (0, {| Repeat.stdout := EmptyString; Repeat.stderr := [] |}))) /\
  fst (Repeat.main opts []) <> 0 /\
  Repeat.stdout (snd (Repeat.main opts [])) = EmptyString.
Proof.
  intros Hp.
  destruct (parse_options_flags _ _ _ Hp) as (Hr & Hn).
  split; [exact Hr|]. split; [exact Hn|]. split.
  - intros msg rest Hnul.
    assert (Hmain : Repeat.main opts (msg :: rest)
      = (0, {| Repeat.stdout :=
                 Repeat.copies (Z.to_nat (Z.max (Repeat.repeats f) 0))
                   (msg ++ (if Repeat.no_newline f then EmptyString
                            else Repeat.newline))%string;
               Repeat.stderr := [] |})).
    { unfold Repeat.main. rewrite Hp.
      rewrite print_loop_copies by lia.
      rewrite put_chars_no_nul by exact Hnul.
      replace (Z.to_nat (Repeat.repeats f - 0))
        with (Z.to_nat (Z.max (Repeat.repeats f) 0)) by lia.
      reflexivity. }
    split; [exact Hmain|].
    intros Hle. rewrite Hmain.
    replace (Z.to_nat (Z.max (Repeat.repeats f) 0)) with 0%nat by lia.
    reflexivity.
  - unfold Repeat.main. rewrite Hp. simpl. split; [discriminate | reflexivity].
Qed.

Lemma repeat_writes_copies_witness :
  Repeat.main [Repeat.OptR 3; Repeat.OptN; Repeat.OptR 2] ["ab"%string; "c"%string]
  = (0, {| Repeat.stdout := "abab"%string; Repeat.stderr := [] |}).
Proof.
  refine (proj1 (proj1 (proj2 (proj2
    (repeat_writes_copies [Repeat.OptR 3; Repeat.OptN; Repeat.OptR 2]
       {| Repeat.repeats := 2; Repeat.no_newline := true |} _)))
    "ab"%string ["c"%string] _)).
  - reflexivity.
  - reflexivity.
Defined.

(** * Further properties of bench.c *)

(** ** Interrupted waits *)

Lemma bind_ext {A B} (m m' : M A) (k k' : A -> M B) w :
  m w = m' w -> (forall a w1, k a w1 = k' a w1) -> bind m k w = bind m' k' w.
Proof.
  intros Hm Hk. unfold bind. rewrite Hm.
  destruct (m' w); [apply Hk | reflexivity | reflexivity].
Qed.

Lemma run_once_without_interrupts E cmd w :
  run_once (without_interrupts E) cmd w = run_once E cmd w.
Proof.
  rewrite !run_once_unfold. simpl.
  destruct (clock E (clk w)); [|reflexivity].
  destruct (proc E cmd (forks w)) as [|prog eintr [|]]; reflexivity.
Qed.

Lemma measure_without_interrupts fuel E cmd total_start dur : forall st w,
  measure fuel (without_interrupts E) cmd total_start dur st w
  = measure fuel E cmd total_start dur st w.
Proof.
  induction fuel as [|fuel IH]; intros st w; simpl; [reflexivity|].
  apply bind_ext; [reflexivity|]. intros t w1.
  destruct (dge (dsub t total_start) dur); [reflexivity|].
  apply bind_ext; [apply run_once_without_interrupts|]. intros r w2.
  destruct (LONG_MAX <=? runs st); [reflexivity|].
  apply bind_ext; [reflexivity|]. intros _ w3. apply IH.
Qed.

Lemma warmup_without_interrupts n E cmd : forall w,
  warmup n (without_interrupts E) cmd w = warmup n E cmd w.
Proof.
  induction n as [|n IH]; intros w; simpl; [reflexivity|].
  apply bind_ext; [apply run_once_without_interrupts|]. intros _ w1. apply IH.
Qed.

(** X2: however often [waitpid] is interrupted, the program does the same:
    the retry loop makes interruptions invisible in the return codes, the
    durations, the statistics, the log and the exit status. *)
Theorem interrupts_are_invisible fuel E opts cmd w :
  main fuel (without_interrupts E) opts cmd w = main fuel E opts cmd w.
Proof.
  unfold main. apply bind_ext; [reflexivity|]. intros c w0.
  destruct cmd as [|a cmd]; [reflexivity|].
  apply bind_ext; [apply warmup_without_interrupts|]. intros _ w1.
  unfold timed_phase.
  apply bind_ext; [reflexivity|]. intros t0 w2.
  apply bind_ext; [apply measure_without_interrupts|]. intros st w3.
  reflexivity.
Qed.

(** ** What one call of run_once does to the world *)

(** X3: a call of [run_once] that returns has called [fork] exactly once.  It
    returns -1 exactly when [fork] failed or [waitpid] failed with an error
    other than an interruption; then it wrote one message to stderr, read
    the clock once and stored no duration.  Otherwise it wrote nothing,
    read the clock twice and stored a duration. *)
Theorem run_once_system_error E cmd w rc out w' :
  run_once E cmd w = Ret (rc, out) w' ->
  forks w' = S (forks w) /\
  (rc = -1 <->
   proc E cmd (forks w) = ForkError \/
   exists prog eintr, proc E cmd (forks w) = Child prog eintr WaitError) /\
  (rc = -1 ->
   out = None /\ clk w' = S (clk w) /\
   (log w' = EvStderr PerrorFork :: EvFork false :: log w \/
    log w' = EvStderr PerrorWaitpid :: EvFork true :: log w)) /\
  (rc <> -1 ->
   out <> None /\ clk w' = S (S (clk w)) /\ log w' = EvFork true :: log w).
Proof.
  rewrite run_once_unfold.
  destruct (clock E (clk w)) as [ts0|]; [|discriminate]. cbv zeta.
  destruct (proc E cmd (forks w)) as [|prog eintr [|]] eqn:Hp.
  - intros H; inversion H; subst; clear H. simpl.
    split; [reflexivity|]. split; [|split].
    + split; [intros _; left; reflexivity | reflexivity].
    + intros _. split; [reflexivity|]. split; [reflexivity|]. left. reflexivity.
    + intros X. now elim X.
  - destruct (clock E (S (clk w))) as [ts1|]; [|discriminate].
    intros H; inversion H; subst; clear H. simpl.
    assert (Hne : classify (wstatus (child prog)) <> -1)
      by (unfold classify; destruct (_ && _); discriminate).
    split; [reflexivity|]. split; [|split].
    + split; [intros X; contradiction|].
      intros [X|(p & n & X)]; discriminate.
    + intros X. contradiction.
    + intros _. split; [discriminate|]. split; reflexivity.
  - intros H; inversion H; subst; clear H. simpl.
    split; [reflexivity|]. split; [|split].
    + split; [intros _; right; eauto | reflexivity].
    + intros _. split; [reflexivity|]. split; [reflexivity|]. right. reflexivity.
    + intros X. now elim X.
Qed.

Lemma run_once_system_error_witness :
  forks (world_of (run_once rough_env cmd_true
                     {| clk := 5; forks := 1; log := [] |})) = 2%nat.
Proof.
  refine (proj1 (run_once_system_error rough_env cmd_true
                   {| clk := 5; forks := 1; log := [] |} (-1) None _ _)).
  vm_compute. reflexivity.
Defined.

(** ** The option loop *)

Lemma parse_options_values opts : forall c w c' w',
  parse_options opts c w = Ret c' w' ->
  warmups c'
    = fold_left (fun n o => match o with OptW n' => n' | _ => n end) opts (warmups c) /\
  duration c'
    = fold_left (fun d o => match o with OptD d' => d' | _ => d end) opts (duration c).
Proof.
  induction opts as [|o opts IH]; intros c w c' w' H; simpl in H.
  - inversion H; subst. auto.
  - destruct o as [n|d|]; simpl.
    + destruct (n <? 0); [discriminate|]. apply IH in H. exact H.
    + destruct (dle d dzero); [discriminate|]. apply IH in H. exact H.
    + discriminate.
Qed.

(** X4: the option loop accepts a list of options exactly when none of them
    is rejected (a negative [-w], a [-d] that is [<= 0.0], an unknown
    option); it then leaves the world untouched, and the configuration
    holds the value of the last [-w] (0 without one) and of the last [-d]
    (5.0 without one): a later option overrides an earlier one. *)
Theorem last_option_wins opts :
  (existsb rejected opts = false <->
   exists c, parse_options opts default_config init_world = Ret c init_world) /\
  (forall c w,
     parse_options opts default_config init_world = Ret c w ->
     w = init_world /\
     warmups c = last_warmups opts /\ duration c = last_duration opts /\
     0 <= warmups c /\ dle (duration c) dzero = false).
Proof.
  split.
  - destruct (parse_options_cases opts default_config init_world)
      as [(Hr & c & Hc & _)|(Hr & m & Hm)].
    + split; [intros _; exists c; exact Hc | intros _; exact Hr].
    + split; [congruence|]. intros (c & Hc). congruence.
  - intros c w H.
    destruct (parse_options_Ret _ _ _ _ _ H) as (-> & Hr).
    destruct (parse_options_values _ _ _ _ _ H) as (Hw & Hd).
    split; [reflexivity|]. split; [exact Hw|]. split; [exact Hd|].
    clear H. unfold last_warmups, last_duration in *.
    rewrite Hw, Hd. clear Hw Hd c.
    assert (G : forall c0, 0 <= warmups c0 -> dle (duration c0) dzero = false ->
      0 <= fold_left (fun n o => match o with OptW n' => n' | _ => n end)
             opts (warmups c0) /\
      dle (fold_left (fun d o => match o with OptD d' => d' | _ => d end)
             opts (duration c0)) dzero = false).
    { induction opts as [|o opts IH]; intros c0 H0 H1; [auto|].
      simpl in Hr. apply orb_false_iff in Hr. destruct Hr as (Ho & Hr).
      destruct o as [n|d|]; simpl in *.
      - apply (IH Hr {| warmups := n; duration := duration c0 |});
          simpl; auto. apply Z.ltb_ge. exact Ho.
      - apply (IH Hr {| warmups := warmups c0; duration := d |}); simpl; auto.
      - discriminate. }
    apply (G default_config); [simpl; lia | vm_compute; reflexivity].
Qed.

(** X5: the first rejected option ends the program: with the options before
    it accepted, whatever follows it and whether or not there is a command,
    [main] writes that option's message to stderr and ends with
    [EXIT_FAILURE], having done nothing else. *)
Theorem first_rejected_option_reported fuel E good o rest cmd :
  existsb rejected good = false ->
  rejected o = true ->
  main fuel E (good ++ o :: rest) cmd init_world
  = Exit EXIT_FAILURE (emit_ev (EvStderr (message_of o)) init_world).
Proof.
  intros Hg Ho.
  assert (H : forall c w, parse_options (good ++ o :: rest) c w
                          = Exit EXIT_FAILURE (emit_ev (EvStderr (message_of o)) w)).
  { induction good as [|g good IH]; intros c w.
    - simpl. destruct o as [n|d|]; simpl in *; rewrite ?Ho; reflexivity.
    - simpl in Hg. apply orb_false_iff in Hg. destruct Hg as (Hg1 & Hg2).
      destruct g as [n|d|]; simpl in *; rewrite ?Hg1; try discriminate;
        apply IH; exact Hg2. }
  unfold main, bind. rewrite H. reflexivity.
Qed.

Lemma first_rejected_option_reported_witness :
  main 4 steady_env ([OptW 2; OptD sixteenth] ++ OptOther :: [OptW (-1)]) []
    init_world
  = Exit EXIT_FAILURE (emit_ev (EvStderr Usage) init_world).
Proof.
  apply (first_rejected_option_reported 4 steady_env [OptW 2; OptD sixteenth]
           OptOther [OptW (-1)] []).
  - vm_compute. reflexivity.
  - reflexivity.
Defined.

Lemma classify_success t :
  well_formed t -> classify (wstatus t) = 0 -> t = Exited 0.
Proof.
  unfold classify. destruct t as [code|sig core]; intros Hwf; simpl in Hwf.
  - rewrite WIFEXITED_exited, WEXITSTATUS_exited by exact Hwf. simpl.
    destruct (Z.eqb_spec code 0); [congruence | discriminate].
  - rewrite WIFEXITED_signaled by exact Hwf. discriminate.
Qed.

Lemma all_failed_length l :
  Forall (fun o : Z * double => fst o <> 0) l -> filter failed l = l.
Proof.
  induction 1 as [|o l Ho _ IH]; simpl; [reflexivity|].
  unfold failed at 1. destruct (Z.eqb_spec (fst o) 0); [contradiction|].
  simpl. now rewrite IH.
Qed.

(** X6: a command that never succeeds (it cannot be executed, it always exits
    with a non-zero code, it is always killed, or [fork] or [waitpid]
    fail): every run counted is counted as a failure, so the reported
    [fails] equals the reported [runs], and the program returns
    [EXIT_FAILURE] as soon as one run was made. *)
Theorem failing_command_fails_every_run fuel E opts cmd code w :
  never_succeeds E cmd ->
  main fuel E opts cmd init_world = Ret code w ->
  Forall (fun o => fst o <> 0) (measured (log w)) /\
  fails (stats_of w) = runs (stats_of w) /\
  (0 < runs (stats_of w) -> code = EXIT_FAILURE) /\
  (runs (stats_of w) = 0 -> code = EXIT_SUCCESS).
Proof.
  intros Hnever Hmain.
  assert (Hall : Forall (fun o => fst o <> 0) (measured (log w))).
  { apply (main_every_run E cmd (fun rc _ => rc <> 0)) with (2 := Hmain).
    intros w0 [rc out] w0' Hrun. simpl.
    rewrite run_once_unfold in Hrun.
    destruct (clock E (clk w0)); [|discriminate]. cbv zeta in Hrun.
    specialize (Hnever (forks w0)).
    destruct (proc E cmd (forks w0)) as [|prog eintr [|]].
    - inversion Hrun. discriminate.
    - destruct (clock E (S (clk w0))); [|discriminate].
      inversion Hrun; subst. destruct Hnever as (Hwf & Hne).
      intros H0. apply Hne. apply classify_success; assumption.
    - inversion Hrun. discriminate. }
  assert (Hf : fails (stats_of w) = runs (stats_of w)).
  { unfold stats_of. rewrite fails_fold, runs_fold.
    rewrite (all_failed_length _ Hall). reflexivity. }
  apply main_log in Hmain.
  destruct Hmain as (c & wu & evs & total & _ & _ & _ & _ & _ & _ & _ & _ & Hcode).
  split; [exact Hall|]. split; [exact Hf|]. rewrite Hcode, Hf. split.
  - intros Hr. destruct (Z.gtb_spec (runs (stats_of w)) 0); [reflexivity | lia].
  - intros ->. reflexivity.
Qed.

Lemma failing_command_fails_every_run_witness :
  let w := world_of (main 4 not_found_env [OptD sixteenth] cmd_true init_world) in
  fails (stats_of w) = runs (stats_of w).
Proof.
  intros w.
  refine (proj1 (proj2 (failing_command_fails_every_run 4 not_found_env
                          [OptD sixteenth] cmd_true 1 w _ _))).
  - intros k. unfold not_found_env, scripted. simpl.
    do 3 (destruct k as [|k]; [simpl; split; [lia | discriminate]|]).
    destruct k; exact I.
  - vm_compute. reflexivity.
Defined.

(** X7: a command that always succeeds: no run counted is a failure, the
    reported [fails] is 0 and the program returns [EXIT_SUCCESS], however
    many runs fit into the budget. *)
Theorem succeeding_command_never_fails fuel E opts cmd code w :
  always_succeeds E cmd ->
  main fuel E opts cmd init_world = Ret code w ->
  Forall (fun o => fst o = 0) (measured (log w)) /\
  fails (stats_of w) = 0 /\
  code = EXIT_SUCCESS.
Proof.
  intros Halways Hmain.
  assert (Hall : Forall (fun o => fst o = 0) (measured (log w))).
  { apply (main_every_run E cmd (fun rc _ => rc = 0)) with (2 := Hmain).
    intros w0 [rc out] w0' Hrun. simpl.
    rewrite run_once_unfold in Hrun.
    destruct (clock E (clk w0)); [|discriminate]. cbv zeta in Hrun.
    destruct (Halways (forks w0)) as (eintr & Hp). rewrite Hp in Hrun.
    destruct (clock E (S (clk w0))); [|discriminate].
    inversion Hrun. reflexivity. }
  assert (Hf : fails (stats_of w) = 0).
  { unfold stats_of. rewrite fails_fold.
    apply no_failed_Forall in Hall. rewrite Hall. reflexivity. }
  apply main_log in Hmain.
  destruct Hmain as (c & wu & evs & total & _ & _ & _ & _ & _ & _ & _ & _ & Hcode).
  split; [exact Hall|]. split; [exact Hf|]. rewrite Hcode, Hf. reflexivity.
Qed.

Lemma succeeding_command_never_fails_witness :
  value_or 1 (main 4 ticking_env [] cmd_true init_world) = EXIT_SUCCESS.
Proof.
  refine (proj2 (proj2 (succeeding_command_never_fails 4 ticking_env [] cmd_true
            _ (world_of (main 4 ticking_env [] cmd_true init_world)) _ _))).
  - intros k. exists 0%nat. reflexivity.
  - vm_compute. reflexivity.
Defined.

(** ** The report and the forks *)

Lemma children_le_fork_calls l : (children l <= fork_calls l)%nat.
Proof.
  unfold children, fork_calls.
  induction l as [|e l IH]; simpl; [lia|].
  destruct e as [[|]| | |]; simpl; lia.
Qed.

(** X8: one fork per run, and no other: when the program returns, [fork] was
    called once for every warmup run and once for every run counted in the
    report, so the number of calls is [warmups + runs]; every call is in the
    log, and no more children than calls were created. *)
Theorem one_fork_per_run fuel E opts cmd code w :
  main fuel E opts cmd init_world = Ret code w ->
  exists c,
    parse_options opts default_config init_world = Ret c init_world /\
    Z.of_nat (forks w) = warmups c + runs (stats_of w) /\
    fork_calls (log w) = forks w /\
    (children (log w) <= forks w)%nat /\
    runs (stats_of w) = Z.of_nat (List.length (measured (log w))).
Proof.
  intros H. apply main_Ret in H.
  destruct H as (c & w1 & Hp & H0 & _ & Hw & Ht).
  apply warmup_Ret in Hw. destruct Hw as (wu & (Lw & Fw & _) & Fk & Mw & _).
  simpl in Lw, Fw. rewrite app_nil_r in Lw.
  apply timed_phase_Ret in Ht.
  destruct Ht as (evs & total & L & F & Fe & _ & _). cbv zeta in L.
  assert (Hm : measured (log w) = measured evs).
  { rewrite L, Lw. unfold report_lines. simpl.
    rewrite measured_app, Mw. reflexivity. }
  assert (Hr : runs (stats_of w) = Z.of_nat (List.length (measured (log w)))).
  { unfold stats_of. rewrite runs_fold. simpl. lia. }
  assert (Hfc : fork_calls (log w) = forks w).
  { rewrite L, !fork_calls_app.
    change (fork_calls (report_lines c (fold_stats zero_stats (measured evs)) total))
      with 0%nat.
    rewrite Lw, F, Fw. lia. }
  exists c. split; [exact Hp|]. split; [|split; [exact Hfc|split; [|exact Hr]]].
  - rewrite Hr, Hm, F, Fw, Fk, Fe. lia.
  - rewrite <- Hfc. apply children_le_fork_calls.
Qed.

Lemma one_fork_per_run_witness :
  exists c,
    parse_options [OptW 1; OptD (of_int 3)] default_config init_world
      = Ret c init_world /\
    Z.of_nat (forks (world_of (main 10 rough_env [OptW 1; OptD (of_int 3)]
                                 cmd_true init_world)))
      = warmups c + runs (stats_of (world_of (main 10 rough_env
                                      [OptW 1; OptD (of_int 3)] cmd_true init_world))).
Proof.
  destruct (one_fork_per_run 10 rough_env [OptW 1; OptD (of_int 3)] cmd_true 1
              (world_of (main 10 rough_env [OptW 1; OptD (of_int 3)]
                           cmd_true init_world)))
    as (c & Hp & Hf & _).
  - vm_compute. reflexivity.
  - exists c. split; [exact Hp | exact Hf].
Defined.

(** X9: when the budget is already used up at the first look (no run is
    made), the report shows 0.0 for minimum, average and maximum, 0 runs
    and 0 failures: the average is not the quotient 0.0 / 0, which would
    be NaN, and the program returns [EXIT_SUCCESS]. *)
Theorem report_without_runs fuel E opts cmd code w :
  main fuel E opts cmd init_world = Ret code w ->
  runs (stats_of w) = 0 ->
  code = EXIT_SUCCESS /\
  is_nan (ddiv (sum_s (stats_of w)) (of_int (runs (stats_of w)))) = true /\
  exists c total_elapsed,
    printed (log w) =
      [EvStdout (TotalLine total_elapsed);
       EvStdout (MaxLine dzero 0);
       EvStdout (AvgLine dzero 0);
       EvStdout (MinLine dzero (warmups c))].
Proof.
  intros H Hr.
  assert (Hz : stats_of w = zero_stats).
  { unfold stats_of in *. rewrite runs_fold in Hr. simpl in Hr.
    destruct (measured (log w)); [reflexivity | simpl in Hr; lia]. }
  apply main_log in H.
  destruct H as (c & wu & evs & total & _ & L & _ & Pw & _ & _ & _ & Pe & Hcode).
  rewrite Hz in *.
  split; [exact Hcode|]. split; [reflexivity|].
  exists c, total. rewrite L, !printed_app, Pe, Pw, app_nil_r. reflexivity.
Qed.

Lemma report_without_runs_witness :
  value_or 1 (main 4 late_env [OptD sixteenth] cmd_true init_world) = EXIT_SUCCESS.
Proof.
  refine (proj1 (report_without_runs 4 late_env [OptD sixteenth] cmd_true _
            (world_of (main 4 late_env [OptD sixteenth] cmd_true init_world)) _ _)).
  - vm_compute. reflexivity.
  - vm_compute. reflexivity.
Defined.

(** ** A budget that is not a number *)

Lemma measure_nan_budget fuel E cmd total_start : forall st w st' w',
  measure fuel E cmd total_start S754_nan st w <> Ret st' w'.
Proof.
  induction fuel as [|fuel IH]; intros st w st' w' H; simpl in H.
  - discriminate.
  - apply bind_Ret in H. destruct H as (t & w1 & _ & H).
    replace (dge (dsub t total_start) S754_nan) with false in H by reflexivity.
    apply bind_Ret in H. destruct H as (r & w2 & _ & H).
    destruct (LONG_MAX <=? runs st); [discriminate|].
    apply bind_Ret in H. destruct H as (u & w3 & _ & H).
    apply (IH _ _ _ _ H).
Qed.

(** X10: the option loop lets a NaN through as duration ([NaN <= 0.0] is
    false), and then the program never gets to its report: [elapsed >= NaN]
    is false at every look at the budget, so for no number of iterations
    does [main] return. *)
Theorem nan_budget_never_reports fuel E opts cmd c code w :
  parse_options opts default_config init_world = Ret c init_world ->
  is_nan (duration c) = true ->
  main fuel E opts cmd init_world <> Ret code w.
Proof.
  intros Hp Hn H.
  apply main_Ret in H. destruct H as (c' & w1 & Hp' & _ & _ & _ & Ht).
  rewrite Hp in Hp'. inversion Hp'; subst c'. clear Hp'.
  destruct (duration c) eqn:Hd; try discriminate.
  unfold timed_phase in Ht.
  apply bind_Ret in Ht. destruct Ht as (t0 & wa & _ & Ht).
  apply bind_Ret in Ht. destruct Ht as (st & wb & Hb & _).
  rewrite Hd in Hb. apply (measure_nan_budget _ _ _ _ _ _ _ _ Hb).
Qed.

Lemma nan_budget_never_reports_witness :
  main 7 ticking_env [OptD S754_nan] cmd_true init_world
  <> Ret 0 init_world.
Proof.
  apply (nan_budget_never_reports 7 ticking_env [OptD S754_nan] cmd_true
           {| warmups := 0; duration := S754_nan |}).
  - reflexivity.
  - reflexivity.
Defined.

(** ** Ending early *)

Lemma now_monotonic_Exit_log E w code w' :
  now_monotonic E w = Exit code w' -> log w' = EvStderr PerrorClock :: log w.
Proof.
  unfold now_monotonic. destruct (clock E (clk w)); intros H; inversion H.
  reflexivity.
Qed.

Lemma run_once_Exit_log E cmd w code w' :
  run_once E cmd w = Exit code w' ->
  exists evs, log w' = EvStderr PerrorClock :: evs ++ log w /\ printed evs = [].
Proof.
  rewrite run_once_unfold.
  destruct (clock E (clk w)).
  - cbv zeta. destruct (proc E cmd (forks w)) as [|prog eintr [|]]; try discriminate.
    destruct (clock E (S (clk w))); [discriminate|].
    intros H; inversion H. exists [EvFork true]. auto.
  - intros H; inversion H. exists []. auto.
Qed.

Lemma warmup_Exit_log n E cmd : forall w code w',
  warmup n E cmd w = Exit code w' ->
  exists evs, log w' = EvStderr PerrorClock :: evs ++ log w /\ printed evs = [].
Proof.
  induction n as [|n IH]; intros w code w' H; simpl in H; [discriminate|].
  apply bind_Exit in H. destruct H as [H|(a & w1 & H1 & H)].
  - apply (run_once_Exit_log _ _ _ _ _ H).
  - apply run_once_Ret in H1. destruct H1 as (evs1 & (L1 & _) & _ & _ & P1 & _).
    apply IH in H. destruct H as (evs2 & L2 & P2).
    exists (evs2 ++ evs1). split.
    + rewrite L2, L1, app_assoc. reflexivity.
    + rewrite printed_app, P1, P2. reflexivity.
Qed.

Lemma measure_Exit_log fuel E cmd total_start dur : forall st w code w',
  measure fuel E cmd total_start dur st w = Exit code w' ->
  exists evs, log w' = EvStderr PerrorClock :: evs ++ log w /\ printed evs = [].
Proof.
  induction fuel as [|fuel IH]; intros st w code w' H; simpl in H; [discriminate|].
  apply bind_Exit in H. destruct H as [H|(t & w1 & H1 & H)].
  - apply now_monotonic_Exit_log in H. exists []. auto.
  - apply now_monotonic_Ret in H1. destruct H1 as (ts & _ & _ & ->).
    destruct (dge (dsub t total_start) dur); [discriminate|].
    apply bind_Exit in H. destruct H as [H|(r & w2 & H2 & H)].
    + apply run_once_Exit_log in H. exact H.
    + destruct (LONG_MAX <=? runs st); [discriminate|].
      apply bind_Exit in H. destruct H as [H|(u & w3 & H3 & H)]; [discriminate|].
      inversion H3; subst w3; clear H3.
      apply run_once_Ret in H2. destruct H2 as (evs1 & (L1 & _) & _ & _ & P1 & _).
      apply IH in H. destruct H as (evs2 & L2 & P2). simpl in L1, L2.
      exists (evs2 ++ EvRun (fst r) (secs_after (snd r)) :: evs1). split.
      * rewrite L2, L1, <- app_assoc. reflexivity.
      * rewrite printed_app. simpl. rewrite P1, P2. reflexivity.
Qed.

(** X11: a program that ends early has reported nothing: whenever [main] ends
    other than by its last [return], the status is [EXIT_FAILURE], the last
    thing it did was to write a message to stderr, and not one line of
    statistics went to stdout.  With accepted options and a command the
    only such end is a failing [clock_gettime]. *)
Theorem early_end_prints_nothing fuel E opts cmd code w :
  main fuel E opts cmd init_world = Exit code w ->
  code = EXIT_FAILURE /\
  printed (log w) = [] /\
  exists m rest,
    log w = EvStderr m :: rest /\
    (existsb rejected opts = false -> cmd <> [] -> m = PerrorClock).
Proof.
  intros H. split; [apply (main_Exit _ _ _ _ _ _ H)|].
  unfold main in H.
  apply bind_Exit in H. destruct H as [H|(c & w0 & Hp & H)].
  - destruct (parse_options_cases opts default_config init_world)
      as [(_ & c1 & Hc & _)|(Hr & m & Hm)]; [congruence|].
    rewrite Hm in H. inversion H; subst. simpl.
    split; [reflexivity|]. exists m, []. split; [reflexivity | congruence].
  - apply parse_options_Ret in Hp. destruct Hp as (-> & Hr).
    destruct cmd as [|a cmd].
    + inversion H; subst. simpl. split; [reflexivity|].
      exists MissingCommand, []. split; [reflexivity|]. intros _ X. now elim X.
    + assert (G : exists evs, log w = EvStderr PerrorClock :: evs ++ []
                              /\ printed evs = []).
      { apply bind_Exit in H. destruct H as [H|(u & w1 & Hw & H)].
        - apply (warmup_Exit_log _ _ _ _ _ _ H).
        - apply warmup_Ret in Hw. destruct Hw as (wu & (Lw & _) & _ & _ & Pw).
          simpl in Lw.
          assert (G1 : exists evs, log w = EvStderr PerrorClock :: evs ++ log w1
                                   /\ printed evs = []).
          { unfold timed_phase in H.
            apply bind_Exit in H. destruct H as [H|(t0 & wa & Ha & H)].
            - apply now_monotonic_Exit_log in H. exists []. auto.
            - apply now_monotonic_Ret in Ha. destruct Ha as (ts0 & _ & _ & ->).
              apply bind_Exit in H. destruct H as [H|(st & wb & Hb & H)].
              + apply measure_Exit_log in H. exact H.
              + apply measure_Ret in Hb.
                destruct Hb as (evs & (Lb & _) & _ & _ & Pb & _). simpl in Lb.
                apply bind_Exit in H. destruct H as [H|(t1 & wc & _ & H)].
                * apply now_monotonic_Exit_log in H. exists evs.
                  rewrite H, Lb. auto.
                * unfold report, bind, emit, ret in H. discriminate. }
          destruct G1 as (evs & L & P). exists (evs ++ wu). split.
          + rewrite L, Lw, <- app_assoc. reflexivity.
          + rewrite printed_app, P, Pw. reflexivity. }
      destruct G as (evs & L & P). rewrite app_nil_r in L.
      split.
      * rewrite L. simpl. exact P.
      * exists PerrorClock, evs. auto.
Qed.

Lemma early_end_prints_nothing_witness :
  printed (log (world_of (main 1 late_env [OptW 2] cmd_true init_world))) = [].
Proof.
  refine (proj1 (proj2 (early_end_prints_nothing 1 late_env [OptW 2] cmd_true 1
            (world_of (main 1 late_env [OptW 2] cmd_true init_world)) _))).
  vm_compute. reflexivity.
Defined.

(** ** The window *)

(** What a completed program is made of: the accepted configuration, the
    world after the warmup, the clock readings that open and close the
    window, and the statistics the timed loop returned, which are those
    folded from the log. *)
Lemma main_window fuel E opts cmd code w :
  main fuel E opts cmd init_world = Ret code w ->
  exists c w1 ts0 ts1 st wb,
    parse_options opts default_config init_world = Ret c init_world /\
    warmup (Z.to_nat (warmups c)) E cmd init_world = Ret tt w1 /\
    clock E (clk w1) = Some ts0 /\
    measure fuel E cmd (seconds ts0) (duration c) zero_stats (ticked w1)
      = Ret st wb /\
    clock E (clk wb) = Some ts1 /\
    clk w = S (clk wb) /\
    st = stats_of w /\
    printed (log w)
      = report_lines c (stats_of w) (dsub (seconds ts1) (seconds ts0)).
Proof.
  intros H. apply main_Ret in H.
  destruct H as (c & w1 & Hp & _ & _ & Hw & Ht).
  pose proof (warmup_Ret _ _ _ _ _ _ Hw) as (wu & (Lw & _) & _ & Mw & Pw).
  simpl in Lw. rewrite app_nil_r in Lw.
  unfold timed_phase in Ht.
  apply bind_Ret in Ht. destruct Ht as (t0 & wa & Ha & Ht).
  apply now_monotonic_Ret in Ha. destruct Ha as (ts0 & Hc0 & -> & ->).
  apply bind_Ret in Ht. destruct Ht as (st & wb & Hb & Ht).
  pose proof (measure_Ret _ _ _ _ _ _ _ _ _ Hb)
    as (evs & (Lb & _) & Hst & _ & Pb & _). simpl in Lb.
  apply bind_Ret in Ht. destruct Ht as (t1 & wc & Hc & Ht).
  apply now_monotonic_Ret in Hc. destruct Hc as (ts1 & Hc1 & -> & ->).
  unfold report, bind, emit, ret in Ht. simpl in Ht.
  injection Ht as Hcode HW.
  assert (Hlog : log w = report_lines c st (dsub (seconds ts1) (seconds ts0))
                         ++ log wb)
    by (rewrite <- HW; reflexivity).
  assert (Hclk : clk w = S (clk wb)) by (rewrite <- HW; reflexivity).
  assert (Hs : st = stats_of w).
  { unfold stats_of. rewrite Hlog. unfold report_lines. simpl.
    rewrite Lb, Lw, measured_app, Mw. exact Hst. }
  exists c, w1, ts0, ts1, st, wb.
  repeat (split; [assumption || reflexivity|]).
  rewrite <- Hs, Hlog, printed_app, Lb, Lw, printed_app, Pb, Pw.
  reflexivity.
Qed.

(** X12: the report is exactly four lines, written once, in the order
    minimum, average, maximum, total.  It echoes the count of the last
    [-w], the number of runs folded and the number of them that failed, and
    its total is the time from the first clock reading after the warmup to
    the last clock reading of the program: the warmup is not part of it. *)
Theorem report_shape fuel E opts cmd code w :
  main fuel E opts cmd init_world = Ret code w ->
  exists w1 ts0 ts1,
    warmup (Z.to_nat (last_warmups opts)) E cmd init_world = Ret tt w1 /\
    clock E (clk w1) = Some ts0 /\
    clock E (Nat.pred (clk w)) = Some ts1 /\
    rev (printed (log w)) =
      [EvStdout (MinLine (shown (stats_of w) (min_s (stats_of w)))
                         (last_warmups opts));
       EvStdout (AvgLine (shown (stats_of w) (avg_of (stats_of w)))
                         (Z.of_nat (List.length (measured (log w)))));
       EvStdout (MaxLine (shown (stats_of w) (max_s (stats_of w)))
                         (Z.of_nat (List.length
                                      (filter failed (measured (log w))))));
       EvStdout (TotalLine (dsub (seconds ts1) (seconds ts0)))].
Proof.
  intros H. apply main_window in H.
  destruct H as (c & w1 & ts0 & ts1 & st & wb & Hp & Hw & H0 & _ & H1 & Hk & _ & P).
  destruct (parse_options_values _ _ _ _ _ Hp) as (Hlw & _).
  assert (Hlw' : warmups c = last_warmups opts) by exact Hlw.
  exists w1, ts0, ts1. rewrite <- Hlw'. split; [exact Hw|]. split; [exact H0|].
  split; [rewrite Hk; exact H1|].
  assert (Hr : runs (stats_of w) = Z.of_nat (List.length (measured (log w))))
    by (unfold stats_of; rewrite runs_fold; reflexivity).
  assert (Hf : fails (stats_of w)
               = Z.of_nat (List.length (filter failed (measured (log w)))))
    by (unfold stats_of; rewrite fails_fold; reflexivity).
  rewrite P. unfold report_lines. cbn [rev app].
  rewrite Hr, Hf. reflexivity.
Qed.

Lemma report_shape_witness :
  exists w1 ts0 ts1,
    warmup (Z.to_nat (last_warmups [OptW 1; OptD (of_int 3)])) rough_env cmd_true
      init_world = Ret tt w1 /\
    clock rough_env (clk w1) = Some ts0 /\
    clock rough_env
      (Nat.pred (clk (world_of (main 10 rough_env [OptW 1; OptD (of_int 3)]
                                  cmd_true init_world)))) = Some ts1 /\
    nth 3 (rev (printed (log (world_of (main 10 rough_env
                                          [OptW 1; OptD (of_int 3)] cmd_true
                                          init_world)))))
          (EvFork false)
    = EvStdout (TotalLine (dsub (seconds ts1) (seconds ts0))).
Proof.
  destruct (report_shape 10 rough_env [OptW 1; OptD (of_int 3)] cmd_true 1
              (world_of (main 10 rough_env [OptW 1; OptD (of_int 3)] cmd_true
                           init_world)))
    as (w1 & ts0 & ts1 & Hw & H0 & H1 & P).
  - vm_compute. reflexivity.
  - exists w1, ts0, ts1. rewrite P. auto.
Defined.

(** X13: at least one run is made whenever the budget is not yet used up at
    the first look: if the clock reading that follows the start of the
    window is less than [duration] after it, a program that returns
    reports [runs >= 1]. *)
Theorem first_run_is_made fuel E opts cmd c w1 ts0 ts1 code w :
  parse_options opts default_config init_world = Ret c init_world ->
  warmup (Z.to_nat (warmups c)) E cmd init_world = Ret tt w1 ->
  clock E (clk w1) = Some ts0 ->
  clock E (S (clk w1)) = Some ts1 ->
  dge (dsub (seconds ts1) (seconds ts0)) (duration c) = false ->
  main fuel E opts cmd init_world = Ret code w ->
  1 <= runs (stats_of w).
Proof.
  intros Hp Hw H0 H1 Hlt Hmain. apply main_window in Hmain.
  destruct Hmain as (c' & w1' & ts0' & ts1' & st & wb & Hp' & Hw' & H0' & Hm
                     & _ & _ & Hs & _).
  rewrite Hp in Hp'. inversion Hp'; subst c'. clear Hp'.
  rewrite Hw in Hw'. inversion Hw'; subst w1'. clear Hw'.
  rewrite H0 in H0'. inversion H0'; subst ts0'. clear H0'.
  rewrite <- Hs. clear Hs.
  destruct fuel as [|fuel]; [simpl in Hm; discriminate|]. simpl in Hm.
  unfold bind at 1 in Hm.
  rewrite (now_monotonic_ok E (ticked w1) ts1 H1), Hlt in Hm.
  apply bind_Ret in Hm. destruct Hm as (r & w2 & _ & Hm).
  apply bind_Ret in Hm. destruct Hm as (u & w3 & _ & Hm).
  apply measure_Ret in Hm. destruct Hm as (evs & _ & -> & _).
  rewrite runs_fold. unfold update_stats. cbn [runs zero_stats]. lia.
Qed.

Lemma first_run_is_made_witness :
  1 <= runs (stats_of (world_of (main 4 steady_env [OptD sixteenth] cmd_true
                                   init_world))).
Proof.
  apply (first_run_is_made 4 steady_env [OptD sixteenth] cmd_true
           {| warmups := 0; duration := sixteenth |} init_world
           steady_start (tick 0 2000000) 0).
  - reflexivity.
  - reflexivity.
  - reflexivity.
  - reflexivity.
  - vm_compute. reflexivity.
  - vm_compute. reflexivity.
Defined.

(** * Further properties of repeat.c *)

Section RepeatMore.

Import Repeat.

Lemma parse_options_unknown opts : forall f,
  In OptOther opts -> parse_options opts f = None.
Proof.
  induction opts as [|o opts IH]; intros f Hin; [contradiction|].
  destruct Hin as [->|Hin]; [reflexivity|].
  destruct o; simpl; auto.
Qed.

Lemma length_append (s1 s2 : string) :
  String.length (s1 ++ s2) = (String.length s1 + String.length s2)%nat.
Proof. induction s1 as [|c s1 IH]; simpl; [reflexivity | now rewrite IH]. Qed.

Lemma length_copies n s :
  String.length (copies n s) = (n * String.length s)%nat.
Proof.
  induction n as [|n IH]; simpl; [reflexivity|].
  now rewrite length_append, IH.
Qed.

End RepeatMore.

(** X14: an option [getopt] rejects ends [repeat] with status 1 and the usage
    message, wherever it stands among the options and whether or not a
    message follows: nothing is written to stdout. *)
Theorem repeat_unknown_option opts args :
  In Repeat.OptOther opts ->
  Repeat.main opts args
  = (1, {| Repeat.stdout := EmptyString; Repeat.stderr := [Repeat.Usage] |}).
Proof.
  intros Hin. unfold Repeat.main.
  rewrite (parse_options_unknown opts Repeat.default_flags Hin). reflexivity.
Qed.

Lemma repeat_unknown_option_witness :
  Repeat.main [Repeat.OptR 3; Repeat.OptOther; Repeat.OptN] ["ab"%string]
  = (1, {| Repeat.stdout := EmptyString; Repeat.stderr := [Repeat.Usage] |}).
Proof.
  apply (repeat_unknown_option [Repeat.OptR 3; Repeat.OptOther; Repeat.OptN]
           ["ab"%string]).
  simpl. right. left. reflexivity.
Defined.

(** X15: the size of what [repeat] writes: with accepted options and a message
    without NUL, stdout holds [max r 0] times the length of the message,
    plus one character per copy unless [-n] was given, where [r] is the
    count of the last [-r] (1 without one). *)
Theorem repeat_output_length opts f msg rest :
  Repeat.parse_options opts Repeat.default_flags = Some f ->
  Repeat.has_nul msg = false ->
  String.length (Repeat.stdout (snd (Repeat.main opts (msg :: rest))))
  = (Z.to_nat (Repeat.last_count opts)
     * (String.length msg + (if existsb Repeat.is_n opts then 0 else 1)))%nat.
Proof.
  intros Hp Hnul.
  destruct (parse_options_flags _ _ _ Hp) as (Hr & Hn).
  unfold Repeat.main. rewrite Hp. simpl.
  rewrite print_loop_copies by lia.
  rewrite put_chars_no_nul by exact Hnul.
  rewrite length_copies, length_append.
  assert (Hr' : Repeat.repeats f = Repeat.last_count opts) by exact Hr.
  assert (Hn' : Repeat.no_newline f = existsb Repeat.is_n opts) by exact Hn.
  rewrite <- Hr', <- Hn'.
  replace (Repeat.repeats f - 0) with (Repeat.repeats f) by lia.
  destruct (Repeat.no_newline f); reflexivity.
Qed.

Lemma repeat_output_length_witness :
  String.length (Repeat.stdout (snd (Repeat.main [Repeat.OptR 3]
                                       ["ab"%string; "c"%string])))
  = (Z.to_nat (Repeat.last_count [Repeat.OptR 3])
     * (String.length "ab"
        + (if existsb Repeat.is_n [Repeat.OptR 3] then 0 else 1)))%nat.
Proof.
  apply (repeat_output_length [Repeat.OptR 3]
           {| Repeat.repeats := 3; Repeat.no_newline := false |}
           "ab"%string ["c"%string]).
  - reflexivity.
  - reflexivity.
Defined.
